(** * Shell execution core of the GitOps extension: [src/cli/shell/exec.ts]

    A shallow embedding of the process execution module.  JavaScript
    closures that capture mutable variables become records threaded
    through handler functions; the event loop becomes a fold of handlers
    over the list of events Node delivers; [process.env], which the module
    reaches through an alias, becomes an explicit store that every launch
    reads and writes.  The callers of the module follow: the git queries
    of [commands/addGitRepository.ts], the checksum and probe helpers of
    the Flux installer, [telemetry.ts] and the command builders of
    [azure/azureTools.ts]. *)

From Stdlib Require Import ZArith Ascii String List Bool Lia.
From Stdlib Require DecimalString.
From stdpp Require Import base option list strings gmap.
Import ListNotations.

Local Open Scope string_scope.
Local Open Scope Z_scope.
Local Open Scope list_scope.

(** ** JavaScript values the module touches *)

(** The line feed written [\n] in the template strings of the source. *)
Definition LF : string := String (ascii_of_nat 10) EmptyString.

(** ** Platform detection *)

Module Platform.

(** [const enum Platform]. *)
Inductive Platform : Type :=
| Windows
| MacOS
| Linux
| Unsupported.

(** The workspace setting that [getUseWsl] used to read:
    [workspace.getConfiguration('vs-kubernetes')['use-wsl']].  [None] is
    an unset value. *)
Definition UseWslSetting : Type := option bool.

Definition WINDOWS : string := "win32".

(** [getUseWsl]: the read of the setting is commented out in the source;
    the body is [return false]. *)
Definition getUseWsl (setting : UseWslSetting) : bool := false.

(** [isWindows]: [(process.platform === WINDOWS) && !getUseWsl()]. *)
Definition isWindows (setting : UseWslSetting) (process_platform : string) : bool :=
  String.eqb process_platform WINDOWS && negb (getUseWsl setting).

(** [isUnix]: [!isWindows()]. *)
Definition isUnix (setting : UseWslSetting) (process_platform : string) : bool :=
  negb (isWindows setting process_platform).

(** [platform]: early return for WSL, then the [switch]. *)
Definition platform (setting : UseWslSetting) (process_platform : string) : Platform :=
  if getUseWsl setting then Linux
  else if String.eqb process_platform "win32" then Windows
  else if String.eqb process_platform "darwin" then MacOS
  else if String.eqb process_platform "linux" then Linux
  else Unsupported.

(** The command line handed to [shelljs.exec] by [execCore] and
    [execProc]: [if (getUseWsl()) { cmd = `wsl ${cmd}`; }]. *)
Definition wslPrefixed (setting : UseWslSetting) (cmd : string) : string :=
  if getUseWsl setting then "wsl " +:+ cmd else cmd.

End Platform.

Import Platform.

(** ** Results and promises *)

(** [interface ShellResult].  The field [code] is declared [number], but
    Node reports [null] for a process ended by a signal, and the source
    tests [code === null]; [None] is that [null]. *)
Record ShellResult : Type := mkShellResult {
  code : option Z;
  stdout : string;
  stderr : string
}.

(** A JavaScript promise of a [ShellResult].  A thrown value is kept as
    the text [String(e)] renders. *)
Inductive PromiseState : Type :=
| Pending
| Resolved (r : ShellResult)
| Rejected (e : string).

(** [resolve(r)]: a promise settles once; later calls are ignored. *)
Definition resolve (r : ShellResult) (p : PromiseState) : PromiseState :=
  match p with
  | Pending => Resolved r
  | _ => p
  end.

(** ** Settings and the host process *)

(** Values the module reads from the editor.  [kubeconfig] is
    [workspace.getConfiguration('vs-kubernetes')['vs-kubernetes.kubeconfig']]
    with [Some s] when [typeof] it is ['string'] and [None] otherwise;
    [fluxPath] is [globalState.get(GlobalStateKey.FluxPath)], [None] for
    [undefined]; [execTimeout] is
    [workspace.getConfiguration('gitops').get('execTimeout')], [None] for
    [undefined]. *)
Record Settings : Type := mkSettings {
  useWsl : UseWslSetting;
  kubeconfig : option string;
  fluxPath : option string;
  execTimeout : option string
}.

(** [process.env] is one object shared by the whole extension host. *)
Abbreviation Env := (gmap string string).

Record Host : Type := mkHost {
  process_platform : string;
  process_env : Env
}.

(** [shelljs.ExecOptions] as built by [execOpts].  [env] is the very
    object [process.env]; the record holds its contents at the moment the
    options are handed to [shelljs.exec]. *)
Record ExecOptions : Type := mkExecOptions {
  opt_cwd : option string;
  opt_env : Env;
  opt_async : bool;
  opt_silent : bool
}.

(** JavaScript truthiness of an optional string. *)
Definition truthy (v : option string) : bool :=
  match v with
  | Some s => negb (String.eqb s "")
  | None => false
  end.

(** [env.Path += `;${fluxPath}`] : reading a missing property yields
    [undefined], which the concatenation renders as the text
    ["undefined"]. *)
Definition appendPath (fp : string) (env : Env) : Env :=
  let old := default "undefined" (env !! "Path") in
  <["Path" := old +:+ ";" +:+ fp]> env.

(** [execOpts].  [let env = process.env] is an alias, so each assignment
    below writes [process.env] itself: the function returns the options
    together with the host it leaves behind. *)
Definition execOpts (cfg : Settings) (cwd : option string) (h : Host)
  : ExecOptions * Host :=
  let plat := process_platform h in
  let env := process_env h in
  let env :=
    if isWindows (useWsl cfg) plat || isUnix (useWsl cfg) plat then
      let env :=
        match kubeconfig cfg with
        | Some kubeconfigPath =>
            if negb (String.eqb kubeconfigPath "")
            then <["KUBECONFIG" := kubeconfigPath]> env
            else env
        | None => env
        end in
      if isWindows (useWsl cfg) plat then
        match fluxPath cfg with
        | Some fp => if truthy (fluxPath cfg) then appendPath fp env else env
        | None => env
        end
      else env
    else env in
  ({| opt_cwd := cwd; opt_env := env; opt_async := true; opt_silent := true |},
   {| process_platform := plat; process_env := env |}).

(** ** Child processes and the operating system *)

(** The part of Node's [ChildProcess] the module reads.  [stdout] and
    [stderr] are [null] when the stream was not piped, which is what the
    optional chaining [childProcess.stdout?.on] guards. *)
Record ChildProcess : Type := mkChildProcess {
  pid : Z;
  spawnargs : list string;
  has_stdout : bool;
  has_stderr : bool
}.

(** What [shelljs.exec] does with a call: it hands back a process; it
    throws; or it starts no process and returns a value that is not one
    (for an empty command line: a string object carrying [code],
    [stdout] and [stderr]).  In the last case [callbackThrows] tells what
    the caller's [callback], if [exec] was given one, does with that
    value: it returns ([None]) or it throws. *)
Inductive ShellExecOutcome : Type :=
| Spawned (proc : ChildProcess)
| Thrown (e : string)
| Declined (value : ShellResult) (callbackThrows : option string).

(** One call of [shelljs.exec], as the library sees it. *)
Record ShellExecCall : Type := mkShellExecCall {
  call_cmd : string;
  call_cwd : option string;
  call_env : Env
}.

(** Signal numbers as the source writes them. *)
Definition SIGTERM : Z := 15.
Definition SIGKILL : Z := 9.

(** One operating-system process: whether it still runs, whether it
    handles (and survives) the termination signal, and the signals
    delivered to it so far. *)
Record OsProcess : Type := mkOsProcess {
  os_pid : Z;
  os_alive : bool;
  os_trapsTerm : bool;
  os_received : list Z
}.

(** The process [shelljs.exec] started (the shell running the command
    line) and every process below it. *)
Record ProcessTree : Type := mkProcessTree {
  root : OsProcess;
  descendants : list OsProcess
}.

Definition members (t : ProcessTree) : list OsProcess :=
  root t :: descendants t.

(** Delivery of one signal to one process.  A process that is gone is
    left alone, the kill signal always ends a live process, the
    termination signal ends it unless it is handled. *)
Definition deliver (sig : Z) (p : OsProcess) : OsProcess :=
  if os_alive p then
    {| os_pid := os_pid p;
       os_alive := if sig =? SIGKILL then false
                   else if sig =? SIGTERM then os_trapsTerm p
                   else os_alive p;
       os_trapsTerm := os_trapsTerm p;
       os_received := os_received p ++ [sig] |}
  else p.

(** [tkill(pid, signal)] from the [tree-kill] package, by its contract:
    the signal goes to the process with that pid and to all of its
    descendants; a missing process is not an error. *)
Definition tkill (target : Z) (sig : Z) (t : ProcessTree) : ProcessTree :=
  if target =? os_pid (root t) then
    {| root := deliver sig (root t);
       descendants := map (deliver sig) (descendants t) |}
  else t.

(** [isRunning(pid)] from the [is-running] package: whether a process with
    that pid exists. *)
Definition isRunning (target : Z) (t : ProcessTree) : bool :=
  existsb (fun p => (os_pid p =? target) && os_alive p) (members t).

(** ** [parseInt] *)

(** A text is held as the bytes of its UTF-8 encoding.  The white space
    that [parseInt] and [trim] skip is the white space and the line
    terminators of JavaScript: U+0009 to U+000D and U+0020 (one byte),
    U+00A0 (two bytes), and U+1680, U+2000 to U+200A, U+2028, U+2029,
    U+202F, U+205F, U+3000 and U+FEFF (three bytes). *)
Definition isWhiteSpace1 (c1 : ascii) : bool :=
  let n1 := nat_of_ascii c1 in
  ((9 <=? n1) && (n1 <=? 13) || (n1 =? 32))%nat.

Definition isWhiteSpace2 (c1 c2 : ascii) : bool :=
  ((nat_of_ascii c1 =? 194) && (nat_of_ascii c2 =? 160))%nat.

Definition isWhiteSpace3 (c1 c2 c3 : ascii) : bool :=
  let n1 := nat_of_ascii c1 in
  let n2 := nat_of_ascii c2 in
  let n3 := nat_of_ascii c3 in
  ((n1 =? 225) && (n2 =? 154) && (n3 =? 128)
   || (n1 =? 226) && (n2 =? 128)
      && ((128 <=? n3) && (n3 <=? 138) || (n3 =? 168) || (n3 =? 169) || (n3 =? 175))
   || (n1 =? 226) && (n2 =? 129) && (n3 =? 159)
   || (n1 =? 227) && (n2 =? 128) && (n3 =? 128)
   || (n1 =? 239) && (n2 =? 187) && (n3 =? 191))%nat.

(** Whether the text begins with a white space character. *)
Definition startsWithWhiteSpace (s : string) : bool :=
  match s with
  | String c1 r1 =>
      isWhiteSpace1 c1
      || match r1 with
         | String c2 r2 =>
             isWhiteSpace2 c1 c2
             || match r2 with
                | String c3 _ => isWhiteSpace3 c1 c2 c3
                | EmptyString => false
                end
         | EmptyString => false
         end
  | EmptyString => false
  end.

(** [String.prototype.trimStart]: the white space characters at the
    head are passed over, one, two or three bytes at a time. *)
Fixpoint trimStart (s : string) : string :=
  match s with
  | String c1 r1 =>
      if isWhiteSpace1 c1 then trimStart r1
      else
        match r1 with
        | String c2 r2 =>
            if isWhiteSpace2 c1 c2 then trimStart r2
            else
              match r2 with
              | String c3 r3 =>
                  if isWhiteSpace3 c1 c2 c3 then trimStart r3 else s
              | EmptyString => s
              end
        | EmptyString => s
        end
  | EmptyString => s
  end.

(** JavaScript numbers that an integer text can denote: not a number,
    an infinity, or an integer that a double holds exactly. *)
Inductive JsNumber : Type :=
| NaN
| Infinite (negative : bool)
| Finite (z : Z).

(** The double nearest to an integer (ties to the even mantissa); beyond
    the largest double it is an infinity. *)
Definition roundToDouble (z : Z) : JsNumber :=
  let a := Z.abs z in
  if a <? 2 ^ 53 then Finite z
  else
    let e := Z.log2 a - 52 in
    let q := Z.shiftr a e in
    let r := a - Z.shiftl q e in
    let half := 2 ^ (e - 1) in
    let q' := if (half <? r) || ((r =? half) && Z.odd q) then q + 1 else q in
    let v := q' * 2 ^ e in
    if 2 ^ 1024 <=? v then Infinite (z <? 0) else Finite (Z.sgn z * v).

(** Value of a character as a digit (any radix up to 36). *)
Definition digitValue (c : ascii) : option Z :=
  let n := Z.of_nat (nat_of_ascii c) in
  if (48 <=? n) && (n <=? 57) then Some (n - 48)
  else if (97 <=? n) && (n <=? 122) then Some (n - 97 + 10)
  else if (65 <=? n) && (n <=? 90) then Some (n - 65 + 10)
  else None.

(** The longest prefix of digits below the radix; [None] when it is
    empty. *)
Fixpoint parseDigits (radix : Z) (s : string) (acc : option Z) : option Z :=
  match s with
  | String c rest =>
      match digitValue c with
      | Some d =>
          if d <? radix
          then parseDigits radix rest (Some (radix * default 0 acc + d))
          else acc
      | None => acc
      end
  | EmptyString => acc
  end.

(** [parseInt(string)] with no radix argument: the integer the digits
    denote, as the double JavaScript makes of it. *)
Definition parseInt (input : string) : JsNumber :=
  let s := trimStart input in
  let '(sign, s) :=
    match s with
    | String "-" rest => (-1, rest)
    | String "+" rest => (1, rest)
    | _ => (1, s)
    end in
  let '(radix, s) :=
    match s with
    | String "0" (String "x" rest) => (16, rest)
    | String "0" (String "X" rest) => (16, rest)
    | _ => (10, s)
    end in
  match parseDigits radix s None with
  | Some n => roundToDouble (sign * n)
  | None => NaN
  end.

(** [timeoutSeconds * 1000] on doubles. *)
Definition timesThousand (n : JsNumber) : JsNumber :=
  match n with
  | Finite z => roundToDouble (z * 1000)
  | other => other
  end.

(** The time Node waits for [setTimeout(callback, after)], in
    milliseconds: [after] itself when it lies between 1 and 2^31 - 1,
    and 1 otherwise. *)
Definition setTimeoutDelay (after : JsNumber) : Z :=
  match after with
  | Finite v => if (1 <=? v) && (v <=? 2147483647) then v else 1
  | _ => 1
  end.

(** [parseInt] first converts its argument to a string: the setting is
    kept as the text [String(value)] gives and [undefined] becomes the
    text ["undefined"]. *)
Definition toStringArg (v : option string) : string :=
  default "undefined" v.

(** ** The timeout governor: [setExecTimeoutKill] *)

(** The closures handed to [setTimeout]: the two of a process, and the
    first one when what [shelljs.exec] returned is not a process (its
    [exitCode] is [undefined], which is not [null]). *)
Inductive TimerCallback : Type :=
| OnDeadline (proc : ChildProcess)
| OnGrace (proc : ChildProcess)
| OnDeadlineOfValue.

(** A pending [setTimeout(callback, delay)], with the time Node waits
    for it in milliseconds. *)
Record Timer : Type := mkTimer {
  callback : TimerCallback;
  delay : Z
}.

(** What the governor can see and change: [proc.exitCode] (Node leaves it
    [null] until the process exits, and also when a signal ended it), the
    process tree, the timers that are armed and have not fired yet (in
    the order of the [setTimeout] calls) and the lines of [console.warn],
    each with its label, the pid and the joined arguments. *)
Record Governor : Type := mkGovernor {
  exitCode : option Z;
  tree : ProcessTree;
  timers : list Timer;
  console : list (string * Z * string)
}.

Definition joinArgs (args : list string) : string :=
  String.concat " " args.

(** The first part of [setExecTimeoutKill]: the setting is parsed, and
    unless it is [NaN] or zero the closure [cb] is armed for
    [timeoutSeconds * 1000] milliseconds. *)
Definition armDeadline (cfg : Settings) (cb : TimerCallback) (g : Governor)
  : Governor :=
  let timeoutSeconds := parseInt (toStringArg (execTimeout cfg)) in
  let armed :=
    {| exitCode := exitCode g;
       tree := tree g;
       timers := timers g
                 ++ [{| callback := cb;
                        delay := setTimeoutDelay (timesThousand timeoutSeconds) |}];
       console := console g |} in
  match timeoutSeconds with
  | NaN => g
  | Finite n => if n =? 0 then g else armed
  | Infinite _ => armed
  end.

(** [setExecTimeoutKill(proc)] for a process: the timers it arms. *)
Definition setExecTimeoutKill (cfg : Settings) (proc : ChildProcess) (g : Governor)
  : Governor :=
  armDeadline cfg (OnDeadline proc) g.

(** The body of a timer callback. *)
Definition fire (cb : TimerCallback) (g : Governor) : Governor :=
  match cb with
  | OnDeadline proc =>
      match exitCode g with
      | None =>
          {| exitCode := exitCode g;
             tree := tkill (pid proc) 15 (tree g);
             timers := timers g ++ [{| callback := OnGrace proc; delay := 2000 |}];
             console := console g ++ [("timeout SIGTERM", pid proc, joinArgs (spawnargs proc))] |}
      | Some _ => g
      end
  | OnGrace proc =>
      if isRunning (pid proc) (tree g) then
        {| exitCode := exitCode g;
           tree := tkill (pid proc) 9 (tree g);
           timers := timers g;
           console := console g ++ [("timeout SIGKILL", pid proc, joinArgs (spawnargs proc))] |}
      else g
  | OnDeadlineOfValue => g
  end.

#[global] Instance ChildProcess_eq_dec : EqDecision ChildProcess.
Proof. solve_decision. Defined.

#[global] Instance TimerCallback_eq_dec : EqDecision TimerCallback.
Proof. solve_decision. Defined.

(** Takes the first armed timer with the given callback off the list;
    [None] when no such timer is armed. *)
Fixpoint takeTimer (cb : TimerCallback) (l : list Timer) : option (list Timer) :=
  match l with
  | [] => None
  | t :: rest =>
      if bool_decide (callback t = cb) then Some rest
      else match takeTimer cb rest with
           | Some rest' => Some (t :: rest')
           | None => None
           end
  end.

(** Expiry of a timer: the event loop runs a callback only if
    [setTimeout] armed it, and runs it once. *)
Definition expire (cb : TimerCallback) (g : Governor) : Governor :=
  match takeTimer cb (timers g) with
  | Some rest =>
      fire cb {| exitCode := exitCode g; tree := tree g;
                 timers := rest; console := console g |}
  | None => g
  end.

(** ** The output channel and the progress notification *)

(** The [newline] option of [output.send]. *)
Inductive Newline : Type :=
| NlSingle
| NlNone.

(** The call site of [execWithOutput] a message was sent from.  The
    channel itself does not see it; it is kept to tell the chunks of the
    two streams apart. *)
Inductive Origin : Type :=
| Header
| StdoutChunk
| StderrChunk
| Trailer.

(** One call [output.send(text, { newline, revealOutputView })].  The
    module [./output] is outside this file; the channel is the list of
    the calls it received, in order. *)
Record SinkMsg : Type := mkSinkMsg {
  origin : Origin;
  text : string;
  newline : Newline;
  reveal : bool
}.

(** The [progress] argument of [innerExec]: the reporter of
    [window.withProgress], or the [progressNoop] object. *)
Inductive ProgressReporter : Type :=
| Notification
| ProgressNoop.

Record Ui : Type := mkUi {
  output : list SinkMsg;
  notification : option string;
  progress : list string;
  errorMessages : list string
}.

(** [progress.report({ message: data })]. *)
Definition report (reporter : ProgressReporter) (data : string) (u : Ui) : Ui :=
  match reporter with
  | Notification =>
      {| output := output u; notification := notification u;
         progress := progress u ++ [data]; errorMessages := errorMessages u |}
  | ProgressNoop => u
  end.

Definition send (m : SinkMsg) (u : Ui) : Ui :=
  {| output := output u ++ [m]; notification := notification u;
     progress := progress u; errorMessages := errorMessages u |}.

#[global] Instance Origin_eq_dec : EqDecision Origin.
Proof. solve_decision. Defined.

(** The texts one call site pushed to the channel, in order. *)
Definition chunksFrom (o : Origin) (u : Ui) : list string :=
  map text (filter (fun m => origin m = o) (output u)).

(** ** What Node and [shelljs] deliver to the module *)

(** The happenings of one invocation, in the order the event loop runs
    them: a chunk on either stream, the ['exit'] event with its code, the
    callback [shelljs.exec] was given (called with code, stdout and
    stderr), and the expiry of a timer. *)
Inductive Event : Type :=
| EvStdout (data : string)
| EvStderr (data : string)
| EvExit (exit_code : option Z)
| EvCallback (cb_code : option Z) (cb_stdout cb_stderr : string)
| EvTimer (cb : TimerCallback).

Definition isExit (ev : Event) : bool :=
  match ev with
  | EvExit _ => true
  | _ => false
  end.

Definition isCallback (ev : Event) : bool :=
  match ev with
  | EvCallback _ _ _ => true
  | _ => false
  end.

(** Node sets [proc.exitCode] and then emits ['exit']; the process that
    was started is gone from then on. *)
Definition processExited (exit_code : option Z) (g : Governor) : Governor :=
  {| exitCode := exit_code;
     tree := {| root := {| os_pid := os_pid (root (tree g));
                           os_alive := false;
                           os_trapsTerm := os_trapsTerm (root (tree g));
                           os_received := os_received (root (tree g)) |};
                descendants := descendants (tree g) |};
     timers := timers g;
     console := console g |}.

(** ** The result aggregator of [execWithOutput] *)

(** The variables [stdout] and [stderr] of [innerExec] and the promise it
    returns. *)
Record Aggregator : Type := mkAggregator {
  acc_stdout : string;
  acc_stderr : string;
  settled : PromiseState
}.

Record Invocation : Type := mkInvocation {
  agg : Aggregator;
  ui : Ui;
  gov : Governor
}.

(** The stderr text of a timed-out command:
    [`exec '${cmd}' timed out.\nSTDERR: ${stderr}`]. *)
Definition timedOut (cmd : string) (partial : string) : string :=
  "exec '" +:+ cmd +:+ "' timed out." +:+ LF +:+ "STDERR: " +:+ partial.

(** [childProcess.stdout.on('data', ...)]. *)
Definition onStdoutData (reporter : ProgressReporter) (data : string) (s : Invocation)
  : Invocation :=
  {| agg := {| acc_stdout := acc_stdout (agg s) +:+ data;
               acc_stderr := acc_stderr (agg s);
               settled := settled (agg s) |};
     ui := report reporter data
             (send {| origin := StdoutChunk; text := data;
                      newline := NlNone; reveal := false |} (ui s));
     gov := gov s |}.

(** [childProcess.stderr.on('data', ...)]. *)
Definition onStderrData (reporter : ProgressReporter) (data : string) (s : Invocation)
  : Invocation :=
  {| agg := {| acc_stdout := acc_stdout (agg s);
               acc_stderr := acc_stderr (agg s) +:+ data;
               settled := settled (agg s) |};
     ui := report reporter data
             (send {| origin := StderrChunk; text := data;
                      newline := NlNone; reveal := false |} (ui s));
     gov := gov s |}.

(** [childProcess.on('exit', ...)]. *)
Definition onExit (cmd : string) (exit_code : option Z) (s : Invocation) : Invocation :=
  let stderr' :=
    match exit_code with
    | None => timedOut cmd (acc_stderr (agg s))
    | Some _ => acc_stderr (agg s)
    end in
  {| agg := {| acc_stdout := acc_stdout (agg s);
               acc_stderr := stderr';
               settled := resolve {| code := exit_code;
                                     stdout := acc_stdout (agg s);
                                     stderr := stderr' |} (settled (agg s)) |};
     ui := send {| origin := Trailer; text := LF;
                   newline := NlNone; reveal := false |} (ui s);
     gov := gov s |}.

(** One turn of the event loop for an invocation of [execWithOutput].  The
    listeners stay registered for the life of the process object; a stream
    that is [null] has none; no callback was passed to [shelljs.exec]. *)
Definition stepWithOutput (cmd : string) (reporter : ProgressReporter)
    (proc : ChildProcess) (s : Invocation) (ev : Event) : Invocation :=
  match ev with
  | EvStdout data => if has_stdout proc then onStdoutData reporter data s else s
  | EvStderr data => if has_stderr proc then onStderrData reporter data s else s
  | EvExit exit_code =>
      onExit cmd exit_code
        {| agg := agg s; ui := ui s; gov := processExited exit_code (gov s) |}
  | EvCallback _ _ _ => s
  | EvTimer cb => {| agg := agg s; ui := ui s; gov := expire cb (gov s) |}
  end.

(** The state of one whole run, as its caller and the rest of the host
    can observe it. *)
Record Run : Type := mkRun {
  run_result : PromiseState;
  run_ui : Ui;
  run_gov : Governor;
  run_host : Host;
  run_calls : list ShellExecCall;
  run_console_error : list string
}.

Definition emptyUi : Ui :=
  {| output := []; notification := None; progress := []; errorMessages := [] |}.

Definition newGovernor (t : ProcessTree) : Governor :=
  {| exitCode := None; tree := t; timers := []; console := [] |}.

(** The only happenings left when no process was started: timers. *)
Definition stepValue (g : Governor) (ev : Event) : Governor :=
  match ev with
  | EvTimer cb => expire cb g
  | _ => g
  end.

(** What [childProcess.stdout?.on('data', ...)] throws when
    [childProcess] is the string object of a declined call: its [stdout]
    is a string, which is not [null] and has no [on]. *)
Definition listenerTypeError : string :=
  "TypeError: childProcess.stdout?.on is not a function".

(** [innerExec(progress)]: the executor of the promise.  It echoes the
    command, builds the environment, calls [shelljs.exec], arms the
    timeout and registers the listeners; the events follow.  An exception
    inside the executor rejects the promise. *)
Definition innerExec (cfg : Settings) (cmd : string) (revealOutputView : bool)
    (cwd : option string) (reporter : ProgressReporter) (u : Ui) (h : Host)
    (outcome : ShellExecOutcome) (t : ProcessTree) (events : list Event) : Run :=
  let u := send {| origin := Header; text := "> " +:+ cmd;
                   newline := NlSingle; reveal := revealOutputView |} u in
  let '(opts, h') := execOpts cfg None h in
  let call := {| call_cmd := cmd; call_cwd := cwd; call_env := opt_env opts |} in
  match outcome with
  | Thrown e =>
      {| run_result := Rejected e; run_ui := u; run_gov := newGovernor t;
         run_host := h'; run_calls := [call]; run_console_error := [] |}
  | Spawned childProcess =>
      let s0 := {| agg := {| acc_stdout := ""; acc_stderr := ""; settled := Pending |};
                   ui := u;
                   gov := setExecTimeoutKill cfg childProcess (newGovernor t) |} in
      let s := fold_left (stepWithOutput cmd reporter childProcess) events s0 in
      {| run_result := settled (agg s); run_ui := ui s; run_gov := gov s;
         run_host := h'; run_calls := [call]; run_console_error := [] |}
  | Declined _ _ =>
      {| run_result := Rejected listenerTypeError; run_ui := u;
         run_gov := fold_left stepValue events
                      (armDeadline cfg OnDeadlineOfValue (newGovernor t));
         run_host := h'; run_calls := [call]; run_console_error := [] |}
  end.

(** [execWithOutput(cmd, { revealOutputView, showProgress, cwd })]:
    [window.withProgress] shows the notification, runs the task with its
    reporter and returns the task's promise. *)
Definition execWithOutput (cfg : Settings) (cmd : string)
    (revealOutputView showProgress : bool) (cwd : option string) (h : Host)
    (outcome : ShellExecOutcome) (t : ProcessTree) (events : list Event) : Run :=
  if showProgress then
    innerExec cfg cmd revealOutputView cwd Notification
      {| output := []; notification := Some "GitOps Running";
         progress := []; errorMessages := [] |}
      h outcome t events
  else
    innerExec cfg cmd revealOutputView cwd ProgressNoop emptyUi h outcome t events.

(** ** [execCore], [exec] and [execProc] *)

(** [type ProcCallback = (proc: ChildProcess) => void], with what matters
    of a call here: it returns ([None]) or it throws ([Some e]). *)
Definition ProcCallback : Type := ChildProcess -> option string.

Record CoreState : Type := mkCoreState {
  core_promise : PromiseState;
  core_gov : Governor
}.

(** One turn of the event loop for an invocation of [execCore]: the
    module listens to nothing but the callback it gave to [shelljs.exec];
    the timers are those of [setExecTimeoutKill]. *)
Definition stepCore (s : CoreState) (ev : Event) : CoreState :=
  match ev with
  | EvCallback c out err =>
      {| core_promise := resolve {| code := c; stdout := out; stderr := err |}
                           (core_promise s);
         core_gov := core_gov s |}
  | EvExit exit_code =>
      {| core_promise := core_promise s;
         core_gov := processExited exit_code (core_gov s) |}
  | EvTimer cb =>
      {| core_promise := core_promise s; core_gov := expire cb (core_gov s) |}
  | EvStdout _ | EvStderr _ => s
  end.

Record CoreRun : Type := mkCoreRun {
  cr_promise : PromiseState;
  cr_gov : Governor;
  cr_calls : list ShellExecCall;
  cr_stdin : option string
}.

(** [execCore(cmd, opts, callback, stdin)].  When [shelljs.exec]
    declines, it never calls the callback it was given, and the promise
    stays as the executor left it. *)
Definition execCore (cfg : Settings) (cmd : string) (opts : ExecOptions)
    (callback : option ProcCallback) (stdin : option string)
    (outcome : ShellExecOutcome) (t : ProcessTree) (events : list Event) : CoreRun :=
  let cmd := wslPrefixed (useWsl cfg) cmd in
  let call := {| call_cmd := cmd; call_cwd := opt_cwd opts; call_env := opt_env opts |} in
  match outcome with
  | Thrown e =>
      {| cr_promise := Rejected e; cr_gov := newGovernor t;
         cr_calls := [call]; cr_stdin := None |}
  | Spawned proc =>
      let g := setExecTimeoutKill cfg proc (newGovernor t) in
      let written := if truthy stdin then stdin else None in
      let thrown :=
        match callback with
        | Some f => f proc
        | None => None
        end in
      match thrown with
      | Some e =>
          let s := fold_left stepCore events
                     {| core_promise := Rejected e; core_gov := g |} in
          {| cr_promise := core_promise s; cr_gov := core_gov s;
             cr_calls := [call]; cr_stdin := written |}
      | None =>
          let s := fold_left stepCore events
                     {| core_promise := Pending; core_gov := g |} in
          {| cr_promise := core_promise s; cr_gov := core_gov s;
             cr_calls := [call]; cr_stdin := written |}
      end
  | Declined _ callbackThrows =>
      let thrown :=
        match callback with
        | Some _ => callbackThrows
        | None => None
        end in
      {| cr_promise := match thrown with
                       | Some e => Rejected e
                       | None => Pending
                       end;
         cr_gov := fold_left stepValue events
                     (armDeadline cfg OnDeadlineOfValue (newGovernor t));
         cr_calls := [call]; cr_stdin := None |}
  end.

(** [exec(cmd, { cwd, callback })]: [await] inside [try]; the [catch]
    turns a rejection into a result with code 2. *)
Definition exec (cfg : Settings) (cmd : string) (cwd : option string)
    (callback : option ProcCallback) (h : Host)
    (outcome : ShellExecOutcome) (t : ProcessTree) (events : list Event) : Run :=
  let '(opts, h') := execOpts cfg cwd h in
  let r := execCore cfg cmd opts callback None outcome t events in
  match cr_promise r with
  | Rejected e =>
      {| run_result := Resolved {| code := Some 2; stdout := "";
                                   stderr := "Failed to execute " +:+ e |};
         run_ui := {| output := []; notification := None; progress := [];
                      errorMessages := [e] |};
         run_gov := cr_gov r; run_host := h'; run_calls := cr_calls r;
         run_console_error := [e] |}
  | p =>
      {| run_result := p; run_ui := emptyUi; run_gov := cr_gov r;
         run_host := h'; run_calls := cr_calls r; run_console_error := [] |}
  end.

(** [execProc(cmd)]: the call it makes to [shelljs.exec]. *)
Definition execProc (cfg : Settings) (cmd : string) (h : Host)
  : ShellExecCall * Host :=
  let '(opts, h') := execOpts cfg None h in
  let cmd := wslPrefixed (useWsl cfg) cmd in
  ({| call_cmd := cmd; call_cwd := opt_cwd opts; call_env := opt_env opts |}, h').

(** ** Predicates used in the statements *)

(** Concatenation of chunks in the order of delivery. *)
Definition joinChunks (chunks : list string) : string :=
  foldr String.append "" chunks.

(** What the aggregator holds while no ['exit'] has been handled: each
    buffer is the concatenation of the chunks its listener pushed to the
    output channel, and the promise is pending. *)
Definition streaming (s : Invocation) : Prop :=
  acc_stdout (agg s) = joinChunks (chunksFrom StdoutChunk (ui s)) /\
  acc_stderr (agg s) = joinChunks (chunksFrom StderrChunk (ui s)) /\
  settled (agg s) = Pending.

(** The result expected at the ['exit'] event, written from the chunks
    the output channel has received by then. *)
Definition resultAtExit (cmd : string) (c : option Z) (u : Ui) : ShellResult :=
  {| code := c;
     stdout := joinChunks (chunksFrom StdoutChunk u);
     stderr := match c with
               | None => timedOut cmd (joinChunks (chunksFrom StderrChunk u))
               | Some _ => joinChunks (chunksFrom StderrChunk u)
               end |}.


(** Two invocations that differ at most in what the user interface was
    asked to show. *)
Definition sameButUi (s s' : Invocation) : Prop :=
  agg s = agg s' /\ gov s = gov s' /\
  map text (output (ui s)) = map text (output (ui s')).



(** ** Concrete settings, hosts and processes *)

Module Sample.

(** No timeout configured, nothing else set. *)
Definition plain : Settings :=
  {| useWsl := None; kubeconfig := None; fluxPath := None; execTimeout := None |}.

(** The setting [gitops.execTimeout] holds ["1"]. *)
Definition oneSecond : Settings :=
  {| useWsl := None; kubeconfig := None; fluxPath := None;
     execTimeout := Some "1" |}.


(** A Windows machine on which Flux was installed by the extension. *)
Definition withFlux : Settings :=
  {| useWsl := None; kubeconfig := Some "C:\kube\config";
     fluxPath := Some "C:\flux"; execTimeout := None |}.

Definition linuxHost : Host :=
  {| process_platform := "linux";
     process_env := {[ "PATH" := "/usr/bin" ]} |}.

Definition windowsHost : Host :=
  {| process_platform := "win32";
     process_env := {[ "Path" := "C:\Windows" ]} |}.

(** The shell [shelljs.exec] starts for a command line. *)
Definition sh (cmd : string) : ChildProcess :=
  {| pid := 4242; spawnargs := ["/bin/sh"; "-c"; cmd];
     has_stdout := true; has_stderr := true |}.

(** The shell alone. *)
Definition shOnly : ProcessTree :=
  {| root := {| os_pid := 4242; os_alive := true; os_trapsTerm := false;
                os_received := [] |};
     descendants := [] |}.

(** The shell and a child of it that handles the termination signal
    and keeps running. *)
Definition shWithStubbornChild : ProcessTree :=
  {| root := {| os_pid := 4242; os_alive := true; os_trapsTerm := false;
                os_received := [] |};
     descendants := [{| os_pid := 4243; os_alive := true; os_trapsTerm := true;
                        os_received := [] |}] |}.


(** A shell that itself handles the termination signal. *)
Definition stubbornSh : ProcessTree :=
  {| root := {| os_pid := 4242; os_alive := true; os_trapsTerm := true;
                os_received := [] |};
     descendants := [{| os_pid := 4243; os_alive := true; os_trapsTerm := true;
                        os_received := [] |}] |}.

End Sample.

(** ** What a run shows and what repeated launches leave *)

(** The texts one event makes [execWithOutput] push to the output
    channel: a chunk of a stream that has a listener, the line feed at
    ['exit'], nothing otherwise. *)
Definition forwarded (proc : ChildProcess) (ev : Event) : list string :=
  match ev with
  | EvStdout data => if has_stdout proc then [data] else []
  | EvStderr data => if has_stderr proc then [data] else []
  | EvExit _ => [LF]
  | EvCallback _ _ _ => []
  | EvTimer _ => []
  end.

(** The chunks one event carries to a listener. *)
Definition chunkOf (proc : ChildProcess) (ev : Event) : list string :=
  match ev with
  | EvStdout data => if has_stdout proc then [data] else []
  | EvStderr data => if has_stderr proc then [data] else []
  | _ => []
  end.

(** The two lines the governor can write with [console.warn]. *)
Definition warnTerm (proc : ChildProcess) : string * Z * string :=
  ("timeout SIGTERM", pid proc, joinArgs (spawnargs proc)).

Definition warnKill (proc : ChildProcess) : string * Z * string :=
  ("timeout SIGKILL", pid proc, joinArgs (spawnargs proc)).

(** The stages a governor attached to [proc] goes through: waiting
    (deadline armed or no timer at all), terminating (kill timer armed),
    and done, with or without the kill. *)
Definition governorStage (proc : ChildProcess) (g : Governor) : Prop :=
  (console g = [] /\
   (timers g = [] \/ exists d, timers g = [{| callback := OnDeadline proc; delay := d |}])) \/
  (console g = [warnTerm proc] /\
   (timers g = [] \/ timers g = [{| callback := OnGrace proc; delay := 2000 |}])) \/
  (console g = [warnTerm proc; warnKill proc] /\ timers g = []).

(** The host after [n] launches with the same settings, each launch
    calling [execOpts] on the host the previous one left. *)
Fixpoint launches (n : nat) (cfg : Settings) (h : Host) : Host :=
  match n with
  | O => h
  | S k => snd (execOpts cfg None (launches k cfg h))
  end.

(** [n] copies of the text [;fp]. *)
Fixpoint fluxSuffix (n : nat) (fp : string) : string :=
  match n with
  | O => ""
  | S k => fluxSuffix k fp +:+ ";" +:+ fp
  end.

(** ** JavaScript string operations used by the callers *)

(** The double quote, written inside template strings of the source. *)
Definition DQ : string := String (ascii_of_nat 34) EmptyString.

(** The no-break space U+00A0, as the two bytes of its encoding. *)
Definition NBSP : string :=
  String (ascii_of_nat 194) (String (ascii_of_nat 160) EmptyString).

(** Whether the text consists of white space characters only. *)
Fixpoint allWhiteSpace (s : string) : bool :=
  match s with
  | String c1 r1 =>
      if isWhiteSpace1 c1 then allWhiteSpace r1
      else
        match r1 with
        | String c2 r2 =>
            if isWhiteSpace2 c1 c2 then allWhiteSpace r2
            else
              match r2 with
              | String c3 r3 => isWhiteSpace3 c1 c2 c3 && allWhiteSpace r3
              | EmptyString => false
              end
        | EmptyString => false
        end
  | EmptyString => true
  end.

(** [String.prototype.trimEnd]: the text is cut where the rest of it is
    white space only. *)
Fixpoint trimEnd (s : string) : string :=
  match s with
  | EmptyString => EmptyString
  | String c rest => if allWhiteSpace s then EmptyString else String c (trimEnd rest)
  end.

(** [String.prototype.trim]. *)
Definition trim (s : string) : string := trimEnd (trimStart s).

(** [s.split(sep)] for a separator that is not empty: the scan goes from
    the left, [cur] is the piece collected so far and [skip] counts the
    characters of a separator that was just matched and are still to be
    passed over. *)
Fixpoint splitGo (sep : string) (skip : nat) (cur : string) (s : string)
  : list string :=
  match s with
  | EmptyString => [cur]
  | String c rest =>
      match skip with
      | S k => splitGo sep k cur rest
      | O =>
          if String.prefix sep s
          then cur :: splitGo sep (String.length sep - 1) "" rest
          else splitGo sep 0 (cur +:+ String c "") rest
      end
  end.

(** [s.split('')] gives the characters one by one. *)
Fixpoint characters (s : string) : list string :=
  match s with
  | EmptyString => []
  | String c rest => String c "" :: characters rest
  end.

Definition split (sep : string) (s : string) : list string :=
  match sep with
  | EmptyString => characters s
  | _ => splitGo sep 0 "" s
  end.

(** [String(code)] for an exit code: an integer in decimal, or [null]. *)
Definition numberToString (c : option Z) : string :=
  match c with
  | Some z => DecimalString.NilZero.string_of_int (Z.to_int z)
  | None => "null"
  end.

(** [a || b] on two strings: the first unless it is empty. *)
Definition orElse (a b : string) : string :=
  if String.eqb a "" then b else a.

(** ** Results of fallible helpers and of awaiting *)

(** [Errorable<T>]: [{ succeeded: true, result }] or
    [{ succeeded: false, error }]. *)
Inductive Errorable (A : Type) : Type :=
| Succeeded (result : A)
| Failed (error : list string).

Arguments Succeeded {A} result.
Arguments Failed {A} error.

(** What an [async] function comes to: it is still waiting on a promise
    that never settles, it threw, or it returned. *)
Inductive Async (A : Type) : Type :=
| Waiting
| Raised (e : string)
| Returned (a : A).

Arguments Waiting {A}.
Arguments Raised {A} e.
Arguments Returned {A} a.

(** [await promise]. *)
Definition await (p : PromiseState) : Async ShellResult :=
  match p with
  | Pending => Waiting
  | Rejected e => Raised e
  | Resolved r => Returned r
  end.

(** ** Installing Flux: checksums and probes *)

(** [checkChecksum(checksumFileContents, targetFileName, computedChecksum)].
    A line is the list of its fields; [line[1]] and [line[0]] are
    [undefined] when the field is missing, and then equal to no string. *)
Definition checkChecksum (checksumFileContents targetFileName computedChecksum : string)
  : Errorable unit :=
  let lines :=
    map (split "  ")
      (List.filter (fun line => negb (String.eqb line ""))
         (split LF checksumFileContents)) in
  let targetLine :=
    find (fun line => match line !! 1%nat with
                      | Some name => String.eqb name targetFileName
                      | None => false
                      end) lines in
  match targetLine with
  | None =>
      Failed ["File not found in the checksums.txt file " +:+ targetFileName]
  | Some targetLine =>
      if match targetLine !! 0%nat with
         | Some sum => String.eqb sum computedChecksum
         | None => false
         end
      then Succeeded tt
      else Failed ["Checksum mismatch for the file " +:+ targetFileName]
  end.

(** The hash algorithms [CertUtil] is asked for. *)
Inductive HashAlgorithm : Type := MD5 | SHA1 | SHA256 | SHA384 | SHA512.

Definition hashAlgorithmName (a : HashAlgorithm) : string :=
  match a with
  | MD5 => "MD5"
  | SHA1 => "SHA1"
  | SHA256 => "SHA256"
  | SHA384 => "SHA384"
  | SHA512 => "SHA512"
  end.

(** [shell.exec(cmd)] as its callers see it: the promise for a command
    line. *)
Definition ShellExec : Type := string -> PromiseState.

(** [computeChecksumWindows(filePath, hashAlgorithm)]. *)
Definition computeChecksumWindows (shell_exec : ShellExec) (filePath : string)
    (hashAlgorithm : HashAlgorithm) : Async (Errorable string) :=
  match await (shell_exec ("CertUtil -hashfile " +:+ DQ +:+ filePath +:+ DQ +:+ " "
                           +:+ hashAlgorithmName hashAlgorithm)) with
  | Waiting => Waiting
  | Raised e => Raised e
  | Returned shellResult =>
      let failure :=
        Failed ["Failed to compute checksum of the file " +:+ DQ +:+ filePath +:+ DQ
                +:+ ". " +:+ orElse (stderr shellResult) (stdout shellResult)] in
      match code shellResult with
      | Some 0 =>
          match split LF (stdout shellResult) !! 1%nat with
          | Some line =>
              let checksum := trim line in
              if negb (String.eqb checksum "")
              then Returned (Succeeded checksum)
              else Returned failure
          | None => Returned failure
          end
      | _ => Returned failure
      end
  end.

(** [isGoFishInstalled()]. *)
Definition isGoFishInstalled (shell_exec : ShellExec) : Async (Errorable unit) :=
  match await (shell_exec "gofish version") with
  | Waiting => Waiting
  | Raised e => Raised e
  | Returned gofishVersionShellResult =>
      match code gofishVersionShellResult with
      | Some 0 => Returned (Succeeded tt)
      | c => Returned (Failed [orElse (stderr gofishVersionShellResult)
                                      (numberToString c)])
      end
  end.

(** The architecture part of the archive name in [installFluxCli]:
    [os.arch() === 'arm64' ? 'arm64' : 'x64' ? 'amd64' : '386'].  The
    second test is the text ['x64'] itself. *)
Definition archString (os_arch : string) : string :=
  if String.eqb os_arch "arm64" then "arm64"
  else if truthy (Some "x64") then "amd64"
  else "386".

(** [`flux_${latestFluxVersion}_windows_${archString}.zip`]. *)
Definition gitHubAssetArchiveName (latestFluxVersion os_arch : string) : string :=
  "flux_" +:+ latestFluxVersion +:+ "_windows_" +:+ archString os_arch +:+ ".zip".

(** A checksums file in the format the source documents: one line per
    archive, checksum, two spaces, file name. *)
Fixpoint checksumsFile (entries : list (string * string)) : string :=
  match entries with
  | [] => ""
  | (sum, name) :: rest => sum +:+ "  " +:+ name +:+ LF +:+ checksumsFile rest
  end.

(** A text with no space and no line feed in it. *)
Fixpoint plainText (s : string) : bool :=
  match s with
  | EmptyString => true
  | String c rest =>
      negb (Ascii.eqb c " ") && negb (Ascii.eqb c (ascii_of_nat 10)) && plainText rest
  end.

(** A text in which the character [c] does not occur. *)
Fixpoint avoids (c : ascii) (s : string) : bool :=
  match s with
  | EmptyString => true
  | String x rest => negb (Ascii.eqb x c) && avoids c rest
  end.

(** Every checksum and file name of the entries is free of spaces and
    line feeds. *)
Definition plainEntries (entries : list (string * string)) : bool :=
  forallb (fun e => plainText (fst e) && plainText (snd e)) entries.

(** ** Asking git about a folder: [addGitRepository.ts] *)

(** [shell.execWithOutput(cmd, { cwd, revealOutputView })] as its callers
    see it: the promise for a command line, a working directory and the
    reveal flag. *)
Definition ShellExecWithOutput : Type :=
  string -> option string -> bool -> PromiseState.

(** What a caller has done so far: the commands it handed to the shell
    and the messages it showed with [window.showErrorMessage]. *)
Record Session : Type := mkSession {
  ses_calls : list (string * option string * bool);
  ses_errors : list string
}.

(** An [async] function of the callers: it runs on a session and comes to
    a result, leaving the session behind. *)
Definition Task (A : Type) : Type := Session -> Async A * Session.

Definition ret {A : Type} (a : A) : Task A := fun s => (Returned a, s).

(** Sequencing through [await]: what follows runs only when the first
    part has returned. *)
Definition bind {A B : Type} (m : Task A) (k : A -> Task B) : Task B :=
  fun s =>
    match m s with
    | (Returned a, s') => k a s'
    | (Waiting, s') => (Waiting, s')
    | (Raised e, s') => (Raised e, s')
    end.

Notation "x <- m ;; k" := (bind m (fun x => k))
  (at level 100, m at next level, right associativity).

Definition execWithOutputTask (sh : ShellExecWithOutput) (cmd : string)
    (cwd : option string) (revealOutputView : bool) : Task ShellResult :=
  fun s =>
    (await (sh cmd cwd revealOutputView),
     {| ses_calls := ses_calls s ++ [(cmd, cwd, revealOutputView)];
        ses_errors := ses_errors s |}).

Definition showErrorMessage (msg : string) : Task unit :=
  fun s =>
    (Returned tt,
     {| ses_calls := ses_calls s; ses_errors := ses_errors s ++ [msg] |}).

(** [code === 0]. *)
Definition exitedZero (r : ShellResult) : bool :=
  match code r with
  | Some 0 => true
  | _ => false
  end.

(** [checkIfInsideGitRepository(cwd)]. *)
Definition checkIfInsideGitRepository (sh : ShellExecWithOutput) (cwd : string)
  : Task bool :=
  isInsideGitRepositoryShellResult <-
    execWithOutputTask sh "git rev-parse --is-inside-work-tree" (Some cwd) false ;;
  let isInsideGitRepository := exitedZero isInsideGitRepositoryShellResult in
  if negb isInsideGitRepository then
    _ <- showErrorMessage ("Not a git repository " +:+ cwd) ;;
    ret false
  else ret true.

(** [getGitOriginUrl(cwd)]; [None] is [undefined]. *)
Definition getGitOriginUrl (sh : ShellExecWithOutput) (cwd : string)
  : Task (option string) :=
  gitRemoteUrlShellResult <-
    execWithOutputTask sh "git ls-remote --get-url origin" (Some cwd) false ;;
  if negb (exitedZero gitRemoteUrlShellResult) then
    _ <- showErrorMessage ("Failed to get origin url "
                           +:+ stderr gitRemoteUrlShellResult) ;;
    ret None
  else ret (Some (trim (stdout gitRemoteUrlShellResult))).

(** [getGitBranch(cwd)]. *)
Definition getGitBranch (sh : ShellExecWithOutput) (cwd : string)
  : Task (option string) :=
  gitCurrentBranchShellResult <-
    execWithOutputTask sh "git rev-parse --abbrev-ref HEAD" (Some cwd) false ;;
  if negb (exitedZero gitCurrentBranchShellResult) then
    _ <- showErrorMessage ("Failed to get current git branch "
                           +:+ stderr gitCurrentBranchShellResult) ;;
    ret None
  else ret (Some (trim (stdout gitCurrentBranchShellResult))).

Record GitRepositoryState : Type := mkGitRepositoryState {
  url : string;
  branch : string
}.

(** [getGitRepositoryState(cwd)]; [!gitUrl] holds for [undefined] and for
    the empty string. *)
Definition getGitRepositoryState (sh : ShellExecWithOutput) (cwd : string)
  : Task (option GitRepositoryState) :=
  isInsideGitRepository <- checkIfInsideGitRepository sh cwd ;;
  if negb isInsideGitRepository then ret None
  else
    gitUrl <- getGitOriginUrl sh cwd ;;
    if negb (truthy gitUrl) then ret None
    else
      gitBranch <- getGitBranch sh cwd ;;
      if negb (truthy gitBranch) then ret None
      else ret (Some {| url := default "" gitUrl; branch := default "" gitBranch |}).

(** ** Telemetry: [telemetry.ts] *)

(** [ExtensionMode] of the editor. *)
Inductive ExtensionMode : Type :=
| Production
| Development
| Test.

(** What the reporter is handed: an event with its optional payload (one
    named property), or an exception with its message and the [name]
    property. *)
Inductive Report : Type :=
| TelemetryEvent (eventName : string) (payload : option (string * string))
| TelemetryException (message : string) (name : string).

(** [canSend()]: the mode is fixed by the context, [env.isTelemetryEnabled]
    is read at each call. *)
Definition canSend (extensionMode : ExtensionMode) (isTelemetryEnabled : bool) : bool :=
  match extensionMode with
  | Production => isTelemetryEnabled
  | _ => false
  end.

(** [send(eventName, payload)]. *)
Definition send_event (extensionMode : ExtensionMode) (isTelemetryEnabled : bool)
    (eventName : string) (payload : option (string * string))
    (reporter : list Report) : list Report :=
  if negb (canSend extensionMode isTelemetryEnabled) then reporter
  else reporter ++ [TelemetryEvent eventName payload].

(** [sendError(eventName, error)]; an error is kept as its message, and a
    missing one becomes [new Error(eventName)]. *)
Definition sendError (extensionMode : ExtensionMode) (isTelemetryEnabled : bool)
    (eventName : string) (error : option string)
    (reporter : list Report) : list Report :=
  if negb (canSend extensionMode isTelemetryEnabled) then reporter
  else
    let error := match error with
                 | Some message => message
                 | None => eventName
                 end in
    reporter ++ [TelemetryException error eventName].

(** One use of the telemetry object by the extension, with the setting
    of the user at that moment. *)
Inductive TelemetryCall : Type :=
| CallSend (isTelemetryEnabled : bool) (eventName : string)
    (payload : option (string * string))
| CallSendError (isTelemetryEnabled : bool) (eventName : string)
    (error : option string).

Definition telemetryStep (extensionMode : ExtensionMode) (reporter : list Report)
    (c : TelemetryCall) : list Report :=
  match c with
  | CallSend enabled eventName payload =>
      send_event extensionMode enabled eventName payload reporter
  | CallSendError enabled eventName error =>
      sendError extensionMode enabled eventName error reporter
  end.

Definition enabledAt (c : TelemetryCall) : bool :=
  match c with
  | CallSend enabled _ _ => enabled
  | CallSendError enabled _ _ => enabled
  end.

Definition reportName (r : Report) : string :=
  match r with
  | TelemetryEvent eventName _ => eventName
  | TelemetryException _ name => name
  end.

Definition callName (c : TelemetryCall) : string :=
  match c with
  | CallSend _ eventName _ => eventName
  | CallSendError _ eventName _ => eventName
  end.

(** What one of the two queries, [getGitOriginUrl] or [getGitBranch],
    comes to: one command, and either its trimmed stdout with no message,
    or [undefined] with one message. *)
Definition querySpec (sh : ShellExecWithOutput) (cwd : string)
    (cmd failure : string) (s0 : Session)
    (a : Async (option string)) (s1 : Session) : Prop :=
  ses_calls s1 = ses_calls s0 ++ [(cmd, Some cwd, false)] /\
  (forall v, a = Returned (Some v) ->
             ses_errors s1 = ses_errors s0 /\
             exists r, sh cmd (Some cwd) false = Resolved r /\ code r = Some 0 /\
                       v = trim (stdout r)) /\
  (a = Returned None ->
   exists r, sh cmd (Some cwd) false = Resolved r /\ code r <> Some 0 /\
             ses_errors s1 = ses_errors s0 ++ [failure +:+ stderr r]).

(** ** Azure: [azureTools.ts] *)

(** [type AzureClusterProvider = ClusterProvider.AKS | ClusterProvider.AzureARC]. *)
Inductive AzureClusterProvider : Type :=
| AKS
| AzureARC.

(** The object [getAzureMetadata] returns. *)
Record AzureMetadata : Type := mkAzureMetadata {
  resourceGroup : string;
  resourceName : string;
  subscriptionId : string
}.

(** [kubernetesTools.invokeKubectlCommand], outside this file: the result
    it comes to for a command line ([None] is [undefined]). *)
Definition Kubectl : Type := string -> Async (option ShellResult).

(** What [parseJson], outside this file, makes of the text that
    [kubectl] printed: [undefined]; the value [null]; or another value,
    with its [data] member when it has one (a map from names to texts;
    [None] when the member is missing). *)
Inductive ConfigMapJson : Type :=
| JsonUndefined
| JsonNull
| JsonValue (data : option (gmap string string)).

Definition ParseConfigMap : Type := string -> ConfigMapJson.

(** The errors of [configMap.data['AZURE_RESOURCE_GROUP']]: reading
    [data] of [null], and reading the entry of a [data] that is
    [undefined]. *)
Definition dataOfNull : string :=
  "TypeError: Cannot read properties of null (reading 'data')".

Definition entryOfUndefined : string :=
  "TypeError: Cannot read properties of undefined (reading 'AZURE_RESOURCE_GROUP')".

(** [getAzureMetadata(contextName, clusterProvider)].  Only
    [configMap === undefined] is tested before the entries are read. *)
Definition getAzureMetadata (kubectl : Kubectl) (parseJson : ParseConfigMap)
    (contextName : string) (clusterProvider : AzureClusterProvider)
  : Async (option AzureMetadata) :=
  let command :=
    match clusterProvider with
    | AKS =>
        "get configmaps extension-manager-config -n " +:+ "kube-system"
        +:+ " --context=" +:+ contextName +:+ " --ignore-not-found -o json"
    | AzureARC =>
        "get configmaps azure-clusterconfig -n " +:+ "azure-arc"
        +:+ " --context=" +:+ contextName +:+ " --ignore-not-found -o json"
    end in
  match kubectl command with
  | Waiting => Waiting
  | Raised e => Raised e
  | Returned configMapShellResult =>
      match configMapShellResult with
      | Some r =>
          if exitedZero r then
            match parseJson (stdout r) with
            | JsonUndefined => Returned None
            | JsonNull => Raised dataOfNull
            | JsonValue None => Raised entryOfUndefined
            | JsonValue (Some data) =>
                let result_resourceGroup := data !! "AZURE_RESOURCE_GROUP" in
                let result_resourceName := data !! "AZURE_RESOURCE_NAME" in
                let result_subscriptionId := data !! "AZURE_SUBSCRIPTION_ID" in
                if negb (truthy result_resourceGroup)
                   || negb (truthy result_resourceName)
                   || negb (truthy result_subscriptionId)
                then Returned None
                else Returned (Some {| resourceGroup := default "" result_resourceGroup;
                                       resourceName := default "" result_resourceName;
                                       subscriptionId := default "" result_subscriptionId |})
            end
          else Returned None
      | None => Returned None
      end
  end.

(** What [invokeAzCommand] has done: the warnings it showed, the context
    names it asked the user about, the command lines it gave to
    [shell.execWithOutput]. *)
Record AzTrace : Type := mkAzTrace {
  az_warnings : list string;
  az_asked : list string;
  az_executed : list string
}.

(** The options after the command: cluster name, type, resource group
    and subscription. *)
Definition azMetadataOptions (clusterProvider : AzureClusterProvider)
    (azureMetadata : AzureMetadata) : string :=
  let clusterType :=
    match clusterProvider with
    | AKS => "managedClusters"
    | AzureARC => "connectedClusters"
    end in
  "--cluster-name " +:+ resourceName azureMetadata
  +:+ " --cluster-type " +:+ clusterType
  +:+ " --resource-group " +:+ resourceGroup azureMetadata
  +:+ " --subscription " +:+ subscriptionId azureMetadata.

(** [invokeAzCommand(command, contextName, clusterProvider)];
    [askUserForAzureMetadata] is outside this file and is given by what
    it comes to for a context name. *)
Definition invokeAzCommand (kubectl : Kubectl) (parseJson : ParseConfigMap)
    (askUserForAzureMetadata : string -> Async (option AzureMetadata))
    (sh : ShellExecWithOutput)
    (command contextName : string) (clusterProvider : AzureClusterProvider)
  : Async (option ShellResult) * AzTrace :=
  let run (warned asked : list string) (azureMetadata : AzureMetadata) :=
    let cmd := command +:+ " " +:+ azMetadataOptions clusterProvider azureMetadata in
    (match await (sh cmd None true) with
     | Waiting => Waiting
     | Raised e => Raised e
     | Returned r => Returned (Some r)
     end,
     {| az_warnings := warned; az_asked := asked; az_executed := [cmd] |}) in
  match getAzureMetadata kubectl parseJson contextName clusterProvider with
  | Waiting => (Waiting, {| az_warnings := []; az_asked := []; az_executed := [] |})
  | Raised e => (Raised e, {| az_warnings := []; az_asked := []; az_executed := [] |})
  | Returned (Some azureMetadata) => run [] [] azureMetadata
  | Returned None =>
      let warned :=
        ["Failed to get Azure resource name or resource group or subscription ID."] in
      match askUserForAzureMetadata contextName with
      | Waiting =>
          (Waiting, {| az_warnings := warned; az_asked := [contextName];
                       az_executed := [] |})
      | Raised e =>
          (Raised e, {| az_warnings := warned; az_asked := [contextName];
                        az_executed := [] |})
      | Returned None =>
          (Returned None, {| az_warnings := warned; az_asked := [contextName];
                             az_executed := [] |})
      | Returned (Some azureMetadata) => run warned [contextName] azureMetadata
      end
  end.

(** The arguments of [createSourceGit2] that shape the command line. *)
Record SourceGitArgs : Type := mkSourceGitArgs {
  sourceName : string;
  arg_url : string;
  arg_branch : string;
  arg_tag : string;
  arg_semver : string;
  arg_commit : string;
  arg_interval : string;
  arg_timeout : string;
  arg_caCert : string;
  arg_caCertFile : string;
  arg_httpsKey : string;
  arg_httpsUser : string;
  arg_knownHosts : string;
  arg_knownHostsFile : string;
  arg_localAuthRef : string;
  arg_sshPrivateKey : string;
  arg_sshPrivateKeyFile : string;
  kustomizationName : string;
  kustomizationPath : string;
  kustomizationDependsOn : string;
  kustomizationTimeout : string;
  kustomizationSyncInterval : string;
  kustomizationRetryInterval : string;
  kustomizationPrune : bool;
  kustomizationForce : bool
}.

(** [value ? ` --flag "${value}"` : ''], the shape of every optional
    argument. *)
Definition flagArg (flag value : string) : string :=
  if negb (String.eqb value "") then " " +:+ flag +:+ " " +:+ DQ +:+ value +:+ DQ
  else "".

(** [value ? ` key="${value}"` : ''], the shape of every kustomization
    field. *)
Definition kustomizationField (key value : string) : string :=
  if negb (String.eqb value "") then " " +:+ key +:+ "=" +:+ DQ +:+ value +:+ DQ
  else "".

(** The optional source arguments of [createSourceGit2], in the order of
    the template. *)
Definition sourceFlags (args : SourceGitArgs) : string :=
  flagArg "--branch" (arg_branch args)
  +:+ flagArg "--tag" (arg_tag args)
  +:+ flagArg "--semver" (arg_semver args)
  +:+ flagArg "--commit" (arg_commit args)
  +:+ flagArg "--interval" (arg_interval args)
  +:+ flagArg "--timeout" (arg_timeout args)
  +:+ flagArg "--https-ca-cert" (arg_caCert args)
  +:+ flagArg "--https-ca-cert-file" (arg_caCertFile args)
  +:+ flagArg "--https-key" (arg_httpsKey args)
  +:+ flagArg "--https-user" (arg_httpsUser args)
  +:+ flagArg "--known-hosts" (arg_knownHosts args)
  +:+ flagArg "--known-hosts-file" (arg_knownHostsFile args)
  +:+ flagArg "--local-auth-ref" (arg_localAuthRef args)
  +:+ flagArg "--ssh-private-key" (arg_sshPrivateKey args)
  +:+ flagArg "--ssh-private-key-file" (arg_sshPrivateKeyFile args).

(** The kustomization fields given as text. *)
Definition kustomizationFields (args : SourceGitArgs) : string :=
  kustomizationField "name" (kustomizationName args)
  +:+ kustomizationField "path" (kustomizationPath args)
  +:+ kustomizationField "depends_on" (kustomizationDependsOn args)
  +:+ kustomizationField "timeout" (kustomizationTimeout args)
  +:+ kustomizationField "sync_interval" (kustomizationSyncInterval args)
  +:+ kustomizationField "retry_interval" (kustomizationRetryInterval args).

(** [kustomizationPrune ? ' prune=true' : 'prune=false'] and
    [kustomizationForce ? ' force=true' : 'prune=false']. *)
Definition pruneText (args : SourceGitArgs) : string :=
  if kustomizationPrune args then " prune=true" else "prune=false".

Definition forceText (args : SourceGitArgs) : string :=
  if kustomizationForce args then " force=true" else "prune=false".

(** [kustomizationPart]: set when any of the eight texts is not empty. *)
Definition kustomizationPart (args : SourceGitArgs) : string :=
  let name := kustomizationField "name" (kustomizationName args) in
  let path := kustomizationField "path" (kustomizationPath args) in
  let dependsOn := kustomizationField "depends_on" (kustomizationDependsOn args) in
  let timeout := kustomizationField "timeout" (kustomizationTimeout args) in
  let syncInterval :=
    kustomizationField "sync_interval" (kustomizationSyncInterval args) in
  let retryInterval :=
    kustomizationField "retry_interval" (kustomizationRetryInterval args) in
  if truthy (Some name) || truthy (Some path) || truthy (Some dependsOn)
     || truthy (Some timeout) || truthy (Some syncInterval)
     || truthy (Some retryInterval) || truthy (Some (pruneText args))
     || truthy (Some (forceText args))
  then " --kustomization" +:+ name +:+ path +:+ dependsOn +:+ timeout
       +:+ syncInterval +:+ retryInterval +:+ pruneText args +:+ forceText args
  else "".

(** The command line [createSourceGit2] hands to [invokeAzCommand]. *)
Definition createSourceGit2Command (args : SourceGitArgs) : string :=
  "az k8s-configuration flux create -n " +:+ sourceName args
  +:+ " --url " +:+ DQ +:+ arg_url args +:+ DQ
  +:+ sourceFlags args +:+ kustomizationPart args.

(** * Properties *)

(** ** Platform detection *)

Section PlatformFacts.

Variable setting : UseWslSetting.

Lemma getUseWsl_false : getUseWsl setting = false.
Proof. reflexivity. Qed.

Lemma isWindows_eqb (p : string) : isWindows setting p = String.eqb p "win32".
Proof. unfold isWindows, WINDOWS. rewrite getUseWsl_false. apply andb_true_r. Qed.

Lemma windows_or_unix (p : string) : isWindows setting p || isUnix setting p = true.
Proof. unfold isUnix. apply orb_negb_r. Qed.

Lemma wslPrefixed_id (cmd : string) : wslPrefixed setting cmd = cmd.
Proof. reflexivity. Qed.

Lemma platform_other (p : string) :
  p <> "win32" -> p <> "darwin" -> p <> "linux" -> platform setting p = Unsupported.
Proof.
  intros Hw Hd Hl. unfold platform. rewrite getUseWsl_false.
  apply String.eqb_neq in Hw, Hd, Hl. now rewrite Hw, Hd, Hl.
Qed.

End PlatformFacts.

(** C9.  [getUseWsl] answers [false] whatever the setting holds; hence
    [platform] follows [process.platform] alone (win32, darwin and linux
    map to Windows, MacOS and Linux, every other name to Unsupported),
    [isUnix] is the negation of [isWindows], and the command line that
    [execCore] and [execProc] hand to [shelljs.exec] is the one they
    received, never one prefixed with [wsl ]. *)
Theorem wsl_is_never_used :
  (forall setting, getUseWsl setting = false) /\
  (forall setting setting' p, platform setting p = platform setting' p) /\
  (forall setting,
      platform setting "win32" = Windows /\
      platform setting "darwin" = MacOS /\
      platform setting "linux" = Linux) /\
  (forall setting p,
      p <> "win32" -> p <> "darwin" -> p <> "linux" ->
      platform setting p = Unsupported) /\
  (forall setting p, isUnix setting p = negb (isWindows setting p)) /\
  (forall cfg cmd opts callback stdin outcome t events,
      map call_cmd (cr_calls (execCore cfg cmd opts callback stdin outcome t events))
      = [cmd]) /\
  (forall cfg cmd h, call_cmd (fst (execProc cfg cmd h)) = cmd).
Proof.
  split; [reflexivity|].
  split; [reflexivity|].
  split; [intros; repeat split|].
  split; [intros; now apply platform_other|].
  split; [reflexivity|].
  split.
  - intros cfg cmd opts callback stdin outcome t events.
    unfold execCore. rewrite wslPrefixed_id.
    destruct outcome as [proc|e|value thrown]; [|reflexivity|reflexivity].
    destruct callback as [f|]; [destruct (f proc)|]; reflexivity.
  - intros cfg cmd h. unfold execProc.
    destruct (execOpts cfg None h) as [opts h']. reflexivity.
Qed.

(** A platform name outside the three known ones, run through the
    theorem. *)
Lemma wsl_is_never_used_witness :
  platform (Some true) "freebsd" = Unsupported /\
  platform (Some true) "win32" = Windows.
Proof.
  destruct wsl_is_never_used as (_ & _ & Hknown & Hother & _).
  split.
  - apply Hother; discriminate.
  - apply (Hknown (Some true)).
Defined.

(** ** The timeout governor *)

Section GovernorFacts.

Implicit Types (g : Governor) (cb : TimerCallback).














End GovernorFacts.


(** [parseInt] as the setting meets it: white space beyond ASCII is
    passed over, the digits stop at the first character that is none, a
    text with no digit is [NaN], and a number that no double holds is
    rounded to the nearest one. *)
Example parseInt_examples :
  parseInt (NBSP +:+ "7") = Finite 7 /\
  parseInt " 30s" = Finite 30 /\
  parseInt "-5" = Finite (-5) /\
  parseInt "0x1F" = Finite 31 /\
  parseInt "undefined" = NaN /\
  parseInt "9007199254740993" = Finite 9007199254740992.
Proof. repeat split; vm_compute; reflexivity. Qed.

(** The deadline that is armed: seven seconds for a setting written
    with a no-break space before the digit, and the shortest wait Node
    knows when the product is negative or beyond 2^31 - 1. *)
Example setExecTimeoutKill_examples :
  let proc := Sample.sh "sleep 10" in
  let timeout text :=
    {| useWsl := None; kubeconfig := None; fluxPath := None;
       execTimeout := Some text |} in
  timers (setExecTimeoutKill (timeout (NBSP +:+ "7")) proc (newGovernor Sample.shOnly))
  = [{| callback := OnDeadline proc; delay := 7000 |}] /\
  timers (setExecTimeoutKill (timeout "-5") proc (newGovernor Sample.shOnly))
  = [{| callback := OnDeadline proc; delay := 1 |}] /\
  timers (setExecTimeoutKill (timeout "2147484") proc (newGovernor Sample.shOnly))
  = [{| callback := OnDeadline proc; delay := 1 |}].
Proof. cbv zeta. repeat split; vm_compute; reflexivity. Qed.


(** ** The result aggregator *)

Section AggregatorFacts.

Variables (cmd : string) (proc : ChildProcess).

Lemma append_nil_r (a : string) : a +:+ "" = a.
Proof.
  induction a as [|c a IH]; [reflexivity|].
  change (String c (a +:+ "") = String c a). now rewrite IH.
Qed.

Lemma append_assoc (a b c : string) : (a +:+ b) +:+ c = a +:+ b +:+ c.
Proof.
  induction a as [|x a IH]; [reflexivity|].
  change (String x ((a +:+ b) +:+ c) = String x (a +:+ b +:+ c)). now rewrite IH.
Qed.

Lemma joinChunks_snoc (l : list string) (x : string) :
  joinChunks (l ++ [x]) = joinChunks l +:+ x.
Proof.
  induction l as [|y l IH]; simpl.
  - apply append_nil_r.
  - now rewrite IH, append_assoc.
Qed.

Lemma chunksFrom_send (o : Origin) (m : SinkMsg) (u : Ui) :
  chunksFrom o (send m u)
  = chunksFrom o u ++ (if decide (origin m = o) then [text m] else []).
Proof.
  unfold chunksFrom, send. simpl.
  rewrite filter_app, map_app. f_equal.
  rewrite filter_cons, filter_nil. now destruct (decide (origin m = o)).
Qed.

Lemma chunksFrom_report (o : Origin) reporter data (u : Ui) :
  chunksFrom o (report reporter data u) = chunksFrom o u.
Proof. now destruct reporter. Qed.

(** A settled promise stays as it is. *)
Lemma resolve_settled (r : ShellResult) (p : PromiseState) :
  p <> Pending -> resolve r p = p.
Proof. destruct p; [congruence|reflexivity|reflexivity]. Qed.

Lemma stepWithOutput_settled reporter (s : Invocation) (ev : Event) :
  settled (agg s) <> Pending ->
  settled (agg (stepWithOutput cmd reporter proc s ev)) = settled (agg s).
Proof.
  intros Hs. destruct ev as [data|data|c|c out err|cb]; simpl; try reflexivity.
  - now destruct (has_stdout proc).
  - now destruct (has_stderr proc).
  - now apply resolve_settled.
Qed.

Lemma run_settled reporter (events : list Event) : forall s,
  settled (agg s) <> Pending ->
  settled (agg (fold_left (stepWithOutput cmd reporter proc) events s))
  = settled (agg s).
Proof.
  induction events as [|ev events IH]; intros s Hs; simpl; [reflexivity|].
  rewrite IH; [now apply stepWithOutput_settled|].
  now rewrite stepWithOutput_settled.
Qed.

Lemma stepWithOutput_streaming reporter (s : Invocation) (ev : Event) :
  isExit ev = false -> streaming s ->
  streaming (stepWithOutput cmd reporter proc s ev).
Proof.
  intros Hev (Hout & Herr & Hp).
  destruct ev as [data|data|c|c out err|cb]; simpl; try discriminate;
    try (repeat split; assumption).
  - destruct (has_stdout proc); [|repeat split; assumption].
    unfold streaming; simpl.
    rewrite !chunksFrom_report, !chunksFrom_send; simpl.
    rewrite joinChunks_snoc, app_nil_r, Hout. now repeat split.
  - destruct (has_stderr proc); [|repeat split; assumption].
    unfold streaming; simpl.
    rewrite !chunksFrom_report, !chunksFrom_send; simpl.
    rewrite joinChunks_snoc, app_nil_r, Herr. now repeat split.
Qed.

Lemma run_streaming reporter (events : list Event) : forall s,
  forallb (fun ev => negb (isExit ev)) events = true -> streaming s ->
  streaming (fold_left (stepWithOutput cmd reporter proc) events s).
Proof.
  induction events as [|ev events IH]; intros s Hev Hs; simpl; [exact Hs|].
  simpl in Hev. apply andb_prop in Hev as [Hev Hrest].
  apply IH; [exact Hrest|]. apply stepWithOutput_streaming; [|exact Hs].
  now apply negb_true_iff.
Qed.

Lemma stepWithOutput_sameButUi reporter reporter' (s s' : Invocation) (ev : Event) :
  sameButUi s s' ->
  sameButUi (stepWithOutput cmd reporter proc s ev)
            (stepWithOutput cmd reporter' proc s' ev).
Proof.
  intros (Ha & Hg & Ho).
  destruct ev as [data|data|c|c out err|cb]; simpl.
  - destruct (has_stdout proc); [|now repeat split].
    repeat split; simpl; [now rewrite Ha|exact Hg|].
    destruct reporter, reporter'; simpl; rewrite !map_app, Ho; reflexivity.
  - destruct (has_stderr proc); [|now repeat split].
    repeat split; simpl; [now rewrite Ha|exact Hg|].
    destruct reporter, reporter'; simpl; rewrite !map_app, Ho; reflexivity.
  - repeat split; simpl; [now rewrite Ha|now rewrite Hg|].
    rewrite !map_app, Ho; reflexivity.
  - now repeat split.
  - repeat split; simpl; [exact Ha|now rewrite Hg|exact Ho].
Qed.

Lemma run_sameButUi reporter reporter' (events : list Event) : forall s s',
  sameButUi s s' ->
  sameButUi (fold_left (stepWithOutput cmd reporter proc) events s)
            (fold_left (stepWithOutput cmd reporter' proc) events s').
Proof.
  induction events as [|ev events IH]; intros s s' H; simpl; [exact H|].
  apply IH. now apply stepWithOutput_sameButUi.
Qed.

End AggregatorFacts.

Lemma innerExec_sameButUi
    (cfg : Settings) (cmd : string) (cwd : option string) (h : Host)
    (outcome : ShellExecOutcome) (t : ProcessTree) (events : list Event)
    (rv rv' : bool) (r r' : ProgressReporter) (u u' : Ui) :
  map text (output u) = map text (output u') ->
  let run := innerExec cfg cmd rv cwd r u h outcome t events in
  let run' := innerExec cfg cmd rv' cwd r' u' h outcome t events in
  run_result run = run_result run' /\
  run_gov run = run_gov run' /\
  run_host run = run_host run' /\
  run_calls run = run_calls run' /\
  map text (output (run_ui run)) = map text (output (run_ui run')).
Proof.
  intros Hu. unfold innerExec.
  destruct (execOpts cfg None h) as [opts h'].
  destruct outcome as [child|e|value thrown]; simpl.
  - match goal with
    | |- context [fold_left (stepWithOutput cmd r child) events ?s0] =>
        match goal with
        | |- context [fold_left (stepWithOutput cmd r' child) events ?s0'] =>
            destruct (run_sameButUi cmd child r r' events s0 s0') as (Ha & Hg & Ho)
        end
    end.
    + repeat split; simpl. now rewrite !map_app, Hu.
    + now rewrite Ha, Hg, Ho.
  - repeat split. now rewrite !map_app, Hu.
  - repeat split. now rewrite !map_app, Hu.
Qed.

(** C10.  The promise [execWithOutput] returns resolves to the same
    result whatever [showProgress] and [revealOutputView] are: with the
    same command, settings, host, process and events, two runs agree on
    the result (and on the governor, the host they leave and the call to
    [shelljs.exec]); the output channel receives the same texts. *)
Theorem result_independent_of_ui_flags
    (cfg : Settings) (cmd : string) (cwd : option string) (h : Host)
    (outcome : ShellExecOutcome) (t : ProcessTree) (events : list Event)
    (revealOutputView showProgress revealOutputView' showProgress' : bool) :
  let run := execWithOutput cfg cmd revealOutputView showProgress cwd h outcome t events in
  let run' := execWithOutput cfg cmd revealOutputView' showProgress' cwd h outcome t events in
  run_result run = run_result run' /\
  run_gov run = run_gov run' /\
  run_host run = run_host run' /\
  run_calls run = run_calls run' /\
  map text (output (run_ui run)) = map text (output (run_ui run')).
Proof.
  unfold execWithOutput.
  destruct showProgress, showProgress'; now apply innerExec_sameButUi.
Qed.

(** ** Runs through the exit of the process *)

Section ThroughExit.

Variables (cmd : string) (proc : ChildProcess) (reporter : ProgressReporter).

Lemma run_through_exit (pre post : list Event) (c : option Z) (s0 : Invocation) :
  forallb (fun ev => negb (isExit ev)) pre = true ->
  streaming s0 ->
  settled (agg (fold_left (stepWithOutput cmd reporter proc)
                  (pre ++ EvExit c :: post) s0))
  = Resolved (resultAtExit cmd c
                (ui (fold_left (stepWithOutput cmd reporter proc) pre s0))).
Proof.
  intros Hpre Hs0. rewrite fold_left_app. simpl.
  destruct (run_streaming cmd proc reporter pre s0 Hpre Hs0) as (Hout & Herr & Hp).
  rewrite run_settled; simpl; rewrite Hp; simpl; [|discriminate].
  unfold resultAtExit. rewrite Hout, Herr. now destruct c.
Qed.

Lemma run_exit_last_chunks (o : Origin) (pre : list Event) (c : option Z)
    (s0 : Invocation) :
  o <> Trailer ->
  chunksFrom o (ui (fold_left (stepWithOutput cmd reporter proc)
                      (pre ++ [EvExit c]) s0))
  = chunksFrom o (ui (fold_left (stepWithOutput cmd reporter proc) pre s0)).
Proof.
  intros Ho. rewrite fold_left_app. simpl. rewrite chunksFrom_send. simpl.
  destruct (decide (Trailer = o)); [congruence|apply app_nil_r].
Qed.

End ThroughExit.

Lemma header_streaming (m : SinkMsg) (u : Ui) (g : Governor) :
  origin m = Header -> output u = [] ->
  streaming {| agg := {| acc_stdout := ""; acc_stderr := ""; settled := Pending |};
               ui := send m u; gov := g |}.
Proof.
  intros Hm Hu. unfold streaming, chunksFrom, send; simpl.
  rewrite Hu; simpl. rewrite !filter_cons, !filter_nil, Hm.
  now repeat split.
Qed.

(** The state [innerExec] starts the event loop from: its promise after
    the events is that of the run. *)
Lemma execWithOutput_unfold (cfg : Settings) (cmd : string) (rv sp : bool)
    (cwd : option string) (h : Host) (proc : ChildProcess) (t : ProcessTree) :
  exists (reporter : ProgressReporter) (s0 : Invocation),
    streaming s0 /\
    gov s0 = setExecTimeoutKill cfg proc (newGovernor t) /\
    forall evs,
      let run := execWithOutput cfg cmd rv sp cwd h (Spawned proc) t evs in
      let s := fold_left (stepWithOutput cmd reporter proc) evs s0 in
      run_result run = settled (agg s) /\ run_ui run = ui s /\ run_gov run = gov s.
Proof.
  unfold execWithOutput, innerExec.
  destruct (execOpts cfg None h) as [opts h'].
  destruct sp; eexists _, _; (split; [|split; [|intros evs; now repeat split]]);
    try reflexivity; now apply header_streaming.
Qed.

(** The result is settled when ['exit'] is handled, from the buffers as
    they are then: its stdout is the concatenation of the stdout chunks
    pushed to the output channel up to that event, and so is its stderr
    when the exit code is not null.  When ['exit'] is the last event, the
    channel holds exactly the chunks of the result. *)
Lemma result_is_chunks_up_to_exit
    (cfg : Settings) (cmd : string) (rv sp : bool) (cwd : option string) (h : Host)
    (proc : ChildProcess) (t : ProcessTree) (pre post : list Event) (c : option Z) :
  forallb (fun ev => negb (isExit ev)) pre = true ->
  let before := execWithOutput cfg cmd rv sp cwd h (Spawned proc) t pre in
  let run := execWithOutput cfg cmd rv sp cwd h (Spawned proc) t
               (pre ++ EvExit c :: post) in
  exists r,
    run_result run = Resolved r /\
    code r = c /\
    stdout r = joinChunks (chunksFrom StdoutChunk (run_ui before)) /\
    (c <> None -> stderr r = joinChunks (chunksFrom StderrChunk (run_ui before))) /\
    (post = [] ->
     stdout r = joinChunks (chunksFrom StdoutChunk (run_ui run)) /\
     (c <> None -> stderr r = joinChunks (chunksFrom StderrChunk (run_ui run)))).
Proof.
  intros Hpre before run. subst before run.
  destruct (execWithOutput_unfold cfg cmd rv sp cwd h proc t)
    as (reporter & s0 & Hs0 & _ & Hrun).
  destruct (Hrun pre) as (_ & Hui & _).
  destruct (Hrun (pre ++ EvExit c :: post)) as (Hres & Hui' & _).
  rewrite Hres, Hui. rewrite (run_through_exit cmd proc reporter pre post c s0 Hpre Hs0).
  eexists; split; [reflexivity|]. simpl.
  split; [reflexivity|]. split; [reflexivity|].
  split; [now destruct c|].
  intros ->. rewrite Hui', !run_exit_last_chunks by discriminate.
  split; [reflexivity|now destruct c].
Qed.

(** The theorem on a run of [echo hello] whose last event is the exit. *)
Lemma result_is_chunks_up_to_exit_witness :
  let before :=
    execWithOutput Sample.plain "echo hello" true true None Sample.linuxHost
      (Spawned (Sample.sh "echo hello")) Sample.shOnly
      [EvStdout "hel"; EvStderr "warning"; EvStdout "lo"] in
  let run :=
    execWithOutput Sample.plain "echo hello" true true None Sample.linuxHost
      (Spawned (Sample.sh "echo hello")) Sample.shOnly
      ([EvStdout "hel"; EvStderr "warning"; EvStdout "lo"] ++ EvExit (Some 0) :: []) in
  exists r,
    run_result run = Resolved r /\
    code r = Some 0 /\
    stdout r = joinChunks (chunksFrom StdoutChunk (run_ui before)) /\
    (Some 0 <> None -> stderr r = joinChunks (chunksFrom StderrChunk (run_ui before))) /\
    (@nil Event = [] ->
     stdout r = joinChunks (chunksFrom StdoutChunk (run_ui run)) /\
     (Some 0 <> None -> stderr r = joinChunks (chunksFrom StderrChunk (run_ui run)))).
Proof.
  apply (result_is_chunks_up_to_exit Sample.plain "echo hello" true true None
           Sample.linuxHost (Sample.sh "echo hello") Sample.shOnly
           [EvStdout "hel"; EvStderr "warning"; EvStdout "lo"] [] (Some 0)).
  reflexivity.
Defined.

(** C4.  The stdout of the result is not always the concatenation of
    the chunks pushed to the output channel during the run.  The command
    [(sleep 1; echo late) &] lets the shell exit at once with code 0
    while its background child still holds the pipe; the ['data']
    listeners stay registered after the promise is settled, so the chunk
    written later is pushed to the output channel (and added to the
    buffer), but the result was settled at ['exit'] with an empty
    stdout.  [exec], which takes its result from the callback of
    [shelljs.exec], returns the whole output of the same command. *)
Theorem chunk_after_exit_not_in_result :
  let run :=
    execWithOutput Sample.plain "(sleep 1; echo late) &" true true None
      Sample.linuxHost (Spawned (Sample.sh "(sleep 1; echo late) &")) Sample.shOnly
      [EvExit (Some 0); EvStdout "late"] in
  exists r,
    run_result run = Resolved r /\
    stdout r = "" /\
    joinChunks (chunksFrom StdoutChunk (run_ui run)) = "late" /\
    joinChunks (chunksFrom StdoutChunk (run_ui run)) <> stdout r.
Proof.
  eexists. split; [vm_compute; reflexivity|].
  split; [reflexivity|]. split; [vm_compute; reflexivity|].
  vm_compute. discriminate.
Qed.

(** ** After the process has exited *)

Section AfterExit.

Implicit Types (g : Governor) (cb : TimerCallback).

Lemma deliver_gone (sig : Z) (p : OsProcess) :
  os_alive p = false -> deliver sig p = p.
Proof. intros Hp. unfold deliver. now rewrite Hp. Qed.

Lemma tkill_root_gone (target sig : Z) (t : ProcessTree) :
  os_alive (root t) = false -> root (tkill target sig t) = root t.
Proof.
  intros Hr. unfold tkill. destruct (target =? os_pid (root t)); [|reflexivity].
  simpl. now apply deliver_gone.
Qed.

Lemma fire_root_gone cb g :
  os_alive (root (tree g)) = false -> root (tree (fire cb g)) = root (tree g).
Proof.
  intros Hr. destruct cb as [p|p|]; simpl.
  - destruct (exitCode g); [reflexivity|]. simpl. now apply tkill_root_gone.
  - destruct (isRunning _ _); [|reflexivity]. simpl. now apply tkill_root_gone.
  - reflexivity.
Qed.

Lemma expire_root_gone cb g :
  os_alive (root (tree g)) = false -> root (tree (expire cb g)) = root (tree g).
Proof.
  intros Hr. unfold expire. destruct (takeTimer cb (timers g)); [|reflexivity].
  now rewrite fire_root_gone.
Qed.

Lemma stepWithOutput_root_gone cmd reporter proc (s : Invocation) (ev : Event) :
  os_alive (root (tree (gov s))) = false ->
  root (tree (gov (stepWithOutput cmd reporter proc s ev))) = root (tree (gov s)).
Proof.
  intros Hr. destruct ev as [data|data|c|c out err|cb]; simpl; try reflexivity.
  - now destruct (has_stdout proc).
  - now destruct (has_stderr proc).
  - destruct (root (tree (gov s))); simpl in *. now rewrite Hr.
  - now apply expire_root_gone.
Qed.

Lemma run_root_gone cmd reporter proc (events : list Event) : forall s,
  os_alive (root (tree (gov s))) = false ->
  root (tree (gov (fold_left (stepWithOutput cmd reporter proc) events s)))
  = root (tree (gov s)).
Proof.
  induction events as [|ev events IH]; intros s Hr; simpl; [reflexivity|].
  rewrite IH; rewrite stepWithOutput_root_gone; auto.
Qed.

End AfterExit.

(** C5.  Once the process has exited, nothing that follows changes what
    the caller receives: whatever events come after ['exit'] (expiry of
    the deadline timer and of the kill timer included, even a repeated
    ['exit']), the promise stays resolved with the one result settled at
    the exit and is never rejected, and the exited process receives no
    further signal.  After an exit with a code the deadline callback does
    nothing at all, and the kill callback does nothing when the process
    is not running. *)
Theorem one_result_after_exit
    (cfg : Settings) (cmd : string) (rv sp : bool) (cwd : option string) (h : Host)
    (proc : ChildProcess) (t : ProcessTree) (pre post : list Event) (c : option Z) :
  forallb (fun ev => negb (isExit ev)) pre = true ->
  let at_exit := execWithOutput cfg cmd rv sp cwd h (Spawned proc) t
                   (pre ++ [EvExit c]) in
  let run := execWithOutput cfg cmd rv sp cwd h (Spawned proc) t
               (pre ++ EvExit c :: post) in
  (exists r, run_result at_exit = Resolved r /\ run_result run = Resolved r) /\
  root (tree (run_gov run)) = root (tree (run_gov at_exit)) /\
  (forall g p n, exitCode g = Some n -> fire (OnDeadline p) g = g) /\
  (forall g p, isRunning (pid p) (tree g) = false -> fire (OnGrace p) g = g).
Proof.
  intros Hpre at_exit run. subst at_exit run.
  destruct (execWithOutput_unfold cfg cmd rv sp cwd h proc t)
    as (reporter & s0 & Hs0 & _ & Hrun).
  destruct (Hrun (pre ++ [EvExit c])) as (Hres1 & _ & Hgov1).
  destruct (Hrun (pre ++ EvExit c :: post)) as (Hres & _ & Hgov).
  split; [|split; [|split]].
  - rewrite Hres1, Hres.
    rewrite (run_through_exit cmd proc reporter pre [] c s0 Hpre Hs0).
    rewrite (run_through_exit cmd proc reporter pre post c s0 Hpre Hs0).
    eexists; split; reflexivity.
  - rewrite Hgov1, Hgov.
    change (pre ++ EvExit c :: post) with (pre ++ [EvExit c] ++ post).
    rewrite app_assoc, (fold_left_app _ (pre ++ [EvExit c]) post).
    apply run_root_gone. rewrite fold_left_app. reflexivity.
  - intros g p n Hg. simpl. now rewrite Hg.
  - intros g p Hg. simpl. now rewrite Hg.
Qed.

(** The theorem on a command that exits with code 0 before its one-second
    deadline; the deadline timer expires afterwards. *)
Lemma one_result_after_exit_witness :
  let at_exit :=
    execWithOutput Sample.oneSecond "echo hello" true true None Sample.linuxHost
      (Spawned (Sample.sh "echo hello")) Sample.shOnly
      ([EvStdout "hello"] ++ [EvExit (Some 0)]) in
  let run :=
    execWithOutput Sample.oneSecond "echo hello" true true None Sample.linuxHost
      (Spawned (Sample.sh "echo hello")) Sample.shOnly
      ([EvStdout "hello"] ++ EvExit (Some 0)
         :: [EvTimer (OnDeadline (Sample.sh "echo hello"));
             EvTimer (OnGrace (Sample.sh "echo hello"))]) in
  (exists r, run_result at_exit = Resolved r /\ run_result run = Resolved r) /\
  root (tree (run_gov run)) = root (tree (run_gov at_exit)).
Proof.
  destruct (one_result_after_exit Sample.oneSecond "echo hello" true true None
              Sample.linuxHost (Sample.sh "echo hello") Sample.shOnly
              [EvStdout "hello"]
              [EvTimer (OnDeadline (Sample.sh "echo hello"));
               EvTimer (OnGrace (Sample.sh "echo hello"))] (Some 0) eq_refl)
    as (Hone & Hroot & _).
  split; [exact Hone|exact Hroot].
Defined.

(** ** Escalation from the termination signal to the kill signal *)

Lemma members_tkill (proc : ChildProcess) (sig : Z) (t : ProcessTree) :
  os_pid (root t) = pid proc ->
  members (tkill (pid proc) sig t) = map (deliver sig) (members t).
Proof. intros Hpid. unfold tkill. now rewrite Hpid, Z.eqb_refl. Qed.

Lemma deliver_kill_gone (p : OsProcess) : os_alive (deliver SIGKILL p) = false.
Proof. unfold deliver. destruct (os_alive p) eqn:Hp; [reflexivity|exact Hp]. Qed.

Lemma isRunning_root (proc : ChildProcess) (t : ProcessTree) :
  os_pid (root t) = pid proc -> os_alive (root t) = true ->
  isRunning (pid proc) t = true.
Proof.
  intros Hpid Halive. unfold isRunning, members. simpl.
  now rewrite Hpid, Z.eqb_refl, Halive.
Qed.

Lemma delay_in_range (n : Z) :
  0 < n -> n <= 2147483 -> setTimeoutDelay (timesThousand (Finite n)) = n * 1000.
Proof.
  intros Hpos Hle. unfold timesThousand, roundToDouble. cbv zeta.
  assert (Hsmall : (Z.abs (n * 1000) <? 2 ^ 53) = true).
  { apply Z.ltb_lt. change (2 ^ 53) with 9007199254740992. lia. }
  rewrite Hsmall. unfold setTimeoutDelay.
  assert (Hlow : (1 <=? n * 1000) = true) by (apply Z.leb_le; lia).
  assert (Hhigh : (n * 1000 <=? 2147483647) = true) by (apply Z.leb_le; lia).
  now rewrite Hlow, Hhigh.
Qed.

(** The steps of the governor, one by one.  With a configured timeout
    of [n] seconds, [n] from 1 to 2147483, one deadline timer of
    [n * 1000] ms is armed.  When it expires and [proc.exitCode] is still
    null, signal 15 is delivered to the process and to every descendant
    and the kill timer is armed with 2000 ms.  When that one expires and
    the process that was started is itself still running, signal 9 is
    delivered to the whole tree, and no process of the tree stays alive;
    when it is not running, the callback sends nothing. *)
Lemma timeout_escalation
    (cfg : Settings) (proc : ChildProcess) (n : Z) (g : Governor) :
  parseInt (toStringArg (execTimeout cfg)) = Finite n ->
  0 < n -> n <= 2147483 ->
  os_pid (root (tree g)) = pid proc ->
  timers (setExecTimeoutKill cfg proc g)
  = timers g ++ [{| callback := OnDeadline proc; delay := n * 1000 |}] /\
  (exitCode g = None ->
   let g' := fire (OnDeadline proc) g in
   members (tree g') = map (deliver SIGTERM) (members (tree g)) /\
   timers g' = timers g ++ [{| callback := OnGrace proc; delay := 2000 |}]) /\
  (os_alive (root (tree g)) = true ->
   let g' := fire (OnGrace proc) g in
   members (tree g') = map (deliver SIGKILL) (members (tree g)) /\
   forall p, In p (members (tree g')) -> os_alive p = false) /\
  (isRunning (pid proc) (tree g) = false -> fire (OnGrace proc) g = g).
Proof.
  intros Hparse Hpos Hle Hpid. split; [|split; [|split]].
  - unfold setExecTimeoutKill, armDeadline. rewrite Hparse.
    destruct (n =? 0) eqn:Hn; [apply Z.eqb_eq in Hn; lia|].
    cbn [timers]. now rewrite delay_in_range.
  - intros Hrun. cbv zeta.
    assert (Hfire : fire (OnDeadline proc) g
                    = {| exitCode := exitCode g;
                         tree := tkill (pid proc) 15 (tree g);
                         timers := timers g ++ [{| callback := OnGrace proc;
                                                   delay := 2000 |}];
                         console := console g
                                    ++ [("timeout SIGTERM", pid proc,
                                         joinArgs (spawnargs proc))] |}).
    { simpl. now rewrite Hrun. }
    rewrite Hfire. split; [now apply members_tkill|reflexivity].
  - intros Halive. cbv zeta.
    assert (Hfire : tree (fire (OnGrace proc) g) = tkill (pid proc) 9 (tree g)).
    { simpl. now rewrite (isRunning_root proc _ Hpid Halive). }
    rewrite Hfire, (members_tkill proc 9 (tree g) Hpid).
    split; [reflexivity|].
    intros p (q & <- & _)%in_map_iff. apply deliver_kill_gone.
  - intros Hgone. simpl. now rewrite Hgone.
Qed.

(** The steps on a shell that handles the termination signal, with a
    timeout of one second. *)
Lemma timeout_escalation_witness :
  let g := newGovernor Sample.stubbornSh in
  let proc := Sample.sh "sleep 10" in
  timers (setExecTimeoutKill Sample.oneSecond proc g)
  = [{| callback := OnDeadline proc; delay := 1000 |}] /\
  (forall p, In p (members (tree (fire (OnGrace proc) g))) -> os_alive p = false).
Proof.
  intros g proc.
  destruct (timeout_escalation Sample.oneSecond proc 1 g
              eq_refl eq_refl ltac:(discriminate) eq_refl) as (Harm & _ & Hkill & _).
  split; [exact Harm|]. exact (proj2 (Hkill eq_refl)).
Defined.

(** C2.  The escalation to signal 9 does not reach a descendant that
    outlives the process that was started.  With a timeout of one
    second, the shell dies of signal 15 while its child handles the
    signal and lives on; when the kill timer expires,
    [isRunning(proc.pid)] is false, so the callback sends no signal 9 and
    logs nothing: after the last timer the child is still alive and has
    received signal 15 only.  The comments of the source say that the
    child processes are killed even if they are not joined correctly. *)
Theorem surviving_descendant_not_killed :
  let proc := Sample.sh "sleep 10" in
  let run :=
    execWithOutput Sample.oneSecond "sleep 10" true true None Sample.linuxHost
      (Spawned proc) Sample.shWithStubbornChild
      [EvTimer (OnDeadline proc); EvExit None; EvTimer (OnGrace proc)] in
  timers (run_gov run) = [] /\
  console (run_gov run) = [warnTerm proc] /\
  descendants (tree (run_gov run))
  = [{| os_pid := 4243; os_alive := true; os_trapsTerm := true;
        os_received := [SIGTERM] |}] /\
  os_received (root (tree (run_gov run))) = [SIGTERM].
Proof. vm_compute. repeat split. Qed.

(** ** The boundary towards the caller *)

Lemma exec_never_rejects (cfg : Settings) (cmd : string) (cwd : option string)
    (callback : option ProcCallback) (h : Host) (outcome : ShellExecOutcome)
    (t : ProcessTree) (events : list Event) (e : string) :
  run_result (exec cfg cmd cwd callback h outcome t events) <> Rejected e.
Proof.
  unfold exec. destruct (execOpts cfg cwd h) as [opts h'].
  destruct (cr_promise _) eqn:Hp; simpl; congruence.
Qed.






(** C1 at a command that runs into its one-second timeout.  Through
    [exec] the result has a null code and the stderr text exactly as
    [shelljs] collected it, with no note of the timeout; through
    [execWithOutput] the same stderr text is wrapped in the note. *)
Theorem exec_timeout_not_annotated :
  let proc := Sample.sh "sleep 10" in
  let viaExec :=
    exec Sample.oneSecond "sleep 10" None None Sample.linuxHost
      (Spawned proc) Sample.shOnly
      [EvTimer (OnDeadline proc); EvExit None; EvCallback None "" "partial"] in
  let viaOutput :=
    execWithOutput Sample.oneSecond "sleep 10" true true None Sample.linuxHost
      (Spawned proc) Sample.shOnly
      [EvStderr "partial"; EvTimer (OnDeadline proc); EvExit None] in
  os_received (root (tree (run_gov viaExec))) = [SIGTERM] /\
  run_result viaExec
  = Resolved {| code := None; stdout := ""; stderr := "partial" |} /\
  run_result viaOutput
  = Resolved {| code := None; stdout := "";
                stderr := timedOut "sleep 10" "partial" |} /\
  timedOut "sleep 10" "partial" <> "partial".
Proof.
  cbv zeta. split; [vm_compute; reflexivity|].
  split; [vm_compute; reflexivity|].
  split; [vm_compute; reflexivity|].
  vm_compute. discriminate.
Qed.

(** C3 at a call of [shelljs.exec] that throws (the spawn fails with
    E2BIG).  [exec] catches it and reports a result with code 2 and the
    error text in stderr; [execWithOutput] has no handler, and its promise
    is rejected. *)
Theorem execWithOutput_spawn_failure_rejects :
  let viaExec :=
    exec Sample.plain "kubectl apply" None None Sample.linuxHost
      (Thrown "Error: spawn E2BIG") Sample.shOnly [] in
  let viaOutput :=
    execWithOutput Sample.plain "kubectl apply" true true None Sample.linuxHost
      (Thrown "Error: spawn E2BIG") Sample.shOnly [] in
  run_result viaExec
  = Resolved {| code := Some 2; stdout := "";
                stderr := "Failed to execute Error: spawn E2BIG" |} /\
  run_result viaOutput = Rejected "Error: spawn E2BIG".
Proof. cbv zeta. split; vm_compute; reflexivity. Qed.

(** ** The environment of the child *)

(** The environment handed to [shelljs.exec] is [process.env] as
    [execOpts] leaves it. *)
Lemma execOpts_env_is_process_env (cfg : Settings) (cwd : option string) (h : Host) :
  opt_env (fst (execOpts cfg cwd h)) = process_env (snd (execOpts cfg cwd h)).
Proof. reflexivity. Qed.

(** C7 on a Windows host with a Flux path recorded.  One launch rewrites
    [process.env] itself (the search path grows, KUBECONFIG appears), and
    the next launch with the same settings gives the child a different
    environment: the Flux directory is appended once more. *)
Theorem execOpts_writes_process_env :
  let first := execOpts Sample.withFlux None Sample.windowsHost in
  let second := execOpts Sample.withFlux None (snd first) in
  process_env Sample.windowsHost !! "Path" = Some "C:\Windows" /\
  process_env Sample.windowsHost !! "KUBECONFIG" = None /\
  process_env (snd first) !! "Path" = Some "C:\Windows;C:\flux" /\
  process_env (snd first) !! "KUBECONFIG" = Some "C:\kube\config" /\
  opt_env (fst first) !! "Path" = Some "C:\Windows;C:\flux" /\
  opt_env (fst second) !! "Path" = Some "C:\Windows;C:\flux;C:\flux".
Proof. cbv zeta. repeat split; vm_compute; reflexivity. Qed.

(** ** One result through [exec] *)

Section CoreFacts.

Lemma stepCore_settled (s : CoreState) (ev : Event) :
  core_promise s <> Pending -> core_promise (stepCore s ev) = core_promise s.
Proof.
  intros Hs. destruct ev; simpl; try reflexivity. now apply resolve_settled.
Qed.

Lemma runCore_settled (events : list Event) : forall s,
  core_promise s <> Pending ->
  core_promise (fold_left stepCore events s) = core_promise s.
Proof.
  induction events as [|ev events IH]; intros s Hs; simpl; [reflexivity|].
  rewrite IH; rewrite stepCore_settled; auto.
Qed.

Lemma runCore_pending (events : list Event) : forall s,
  forallb (fun ev => negb (isCallback ev)) events = true ->
  core_promise s = Pending ->
  core_promise (fold_left stepCore events s) = Pending.
Proof.
  induction events as [|ev events IH]; intros s Hev Hs; simpl; [exact Hs|].
  simpl in Hev. apply andb_prop in Hev as [Hev Hrest].
  apply IH; [exact Hrest|]. destruct ev; simpl; try exact Hs. discriminate.
Qed.

End CoreFacts.

(** * Further properties of the module *)

(** ** What reaches the output channel and the notification *)

Lemma run_output_texts (cmd : string) (proc : ChildProcess)
    (reporter : ProgressReporter) (events : list Event) : forall s,
  map text (output (ui (fold_left (stepWithOutput cmd reporter proc) events s)))
  = map text (output (ui s)) ++ flat_map (forwarded proc) events.
Proof.
  induction events as [|ev events IH]; intros s; simpl; [now rewrite app_nil_r|].
  rewrite IH, app_assoc. f_equal.
  destruct ev as [data|data|c|c out err|cb]; simpl.
  - destruct (has_stdout proc); simpl; [|now rewrite app_nil_r].
    destruct reporter; simpl; now rewrite map_app.
  - destruct (has_stderr proc); simpl; [|now rewrite app_nil_r].
    destruct reporter; simpl; now rewrite map_app.
  - now rewrite map_app.
  - now rewrite app_nil_r.
  - now rewrite app_nil_r.
Qed.

Lemma run_progress (cmd : string) (proc : ChildProcess)
    (reporter : ProgressReporter) (events : list Event) : forall s,
  progress (ui (fold_left (stepWithOutput cmd reporter proc) events s))
  = progress (ui s)
    ++ match reporter with
       | Notification => flat_map (chunkOf proc) events
       | ProgressNoop => []
       end.
Proof.
  induction events as [|ev events IH]; intros s; simpl.
  - destruct reporter; now rewrite app_nil_r.
  - rewrite IH. destruct reporter.
    + rewrite app_assoc. f_equal.
      destruct ev as [data|data|c|c out err|cb]; simpl;
        try destruct (has_stdout proc); try destruct (has_stderr proc);
        simpl; now rewrite ?app_nil_r.
    + f_equal.
      destruct ev as [data|data|c|c out err|cb]; simpl;
        try destruct (has_stdout proc); try destruct (has_stderr proc);
        reflexivity.
Qed.

(** X1.  The output channel receives the echoed command first and then
    one text per event, in the order the events arrive: every chunk of
    either stream as it is, and a line feed at ['exit']; nothing is
    dropped, merged or reordered, before or after the exit.  The progress
    notification receives the same chunks (without the line feed) when
    [showProgress] is set, and nothing when it is not. *)
Theorem output_in_arrival_order
    (cfg : Settings) (cmd : string) (rv sp : bool) (cwd : option string) (h : Host)
    (proc : ChildProcess) (t : ProcessTree) (events : list Event) :
  let run := execWithOutput cfg cmd rv sp cwd h (Spawned proc) t events in
  map text (output (run_ui run)) = ("> " +:+ cmd) :: flat_map (forwarded proc) events /\
  progress (run_ui run) = (if sp then flat_map (chunkOf proc) events else []).
Proof.
  unfold execWithOutput, innerExec. destruct (execOpts cfg None h) as [opts h'].
  destruct sp; simpl; rewrite run_output_texts, run_progress; now split.
Qed.

(** ** The stages of the governor *)

Section Stages.

Variable proc : ChildProcess.

Lemma takeTimer_single (cb : TimerCallback) (tm : Timer) (rest : list Timer) :
  takeTimer cb [tm] = Some rest -> callback tm = cb /\ rest = [].
Proof.
  simpl. case_bool_decide; [intros [= <-]; now split|discriminate].
Qed.

Lemma expire_stage (cb : TimerCallback) (g : Governor) :
  governorStage proc g -> governorStage proc (expire cb g).
Proof.
  intros Hg. unfold expire.
  destruct (takeTimer cb (timers g)) as [rest|] eqn:Htake; [|exact Hg].
  destruct Hg as [(Hc & [Ht|(d & Ht)]) | [(Hc & [Ht|Ht]) | (Hc & Ht)]];
    rewrite Ht in Htake; try discriminate;
    apply takeTimer_single in Htake as [<- ->]; simpl.
  - destruct (exitCode g); simpl.
    + left. split; [exact Hc|now left].
    + right; left. rewrite Hc. split; [reflexivity|now right].
  - destruct (isRunning (pid proc) (tree g)); simpl.
    + right; right. rewrite Hc. now split.
    + right; left. split; [exact Hc|now left].
Qed.

Lemma stepWithOutput_stage cmd reporter (s : Invocation) (ev : Event) :
  governorStage proc (gov s) ->
  governorStage proc (gov (stepWithOutput cmd reporter proc s ev)).
Proof.
  intros Hg. destruct ev as [data|data|c|c out err|cb]; simpl; try exact Hg.
  - now destruct (has_stdout proc).
  - now destruct (has_stderr proc).
  - now apply expire_stage.
Qed.

Lemma run_stage cmd reporter (events : list Event) : forall s,
  governorStage proc (gov s) ->
  governorStage proc (gov (fold_left (stepWithOutput cmd reporter proc) events s)).
Proof.
  induction events as [|ev events IH]; intros s Hg; simpl; [exact Hg|].
  apply IH. now apply stepWithOutput_stage.
Qed.

Lemma setExecTimeoutKill_stage (cfg : Settings) (t : ProcessTree) :
  governorStage proc (setExecTimeoutKill cfg proc (newGovernor t)).
Proof.
  unfold setExecTimeoutKill, armDeadline. left.
  destruct (parseInt _) as [|negative|n];
    [split; [reflexivity|now left]|split; [reflexivity|right; now eexists]|].
  destruct (n =? 0); simpl; (split; [reflexivity|]); [now left|].
  right. now eexists.
Qed.

End Stages.

(** X2.  Through a whole run of [execWithOutput] the governor moves
    forward only: at most one timer is pending at any time, signal 15 is
    announced at most once, signal 9 at most once and never unless
    signal 15 was announced before it. *)
Theorem governor_never_kills_first
    (cfg : Settings) (cmd : string) (rv sp : bool) (cwd : option string) (h : Host)
    (proc : ChildProcess) (t : ProcessTree) (events : list Event) :
  let g := run_gov (execWithOutput cfg cmd rv sp cwd h (Spawned proc) t events) in
  (console g = [] \/ console g = [warnTerm proc]
   \/ console g = [warnTerm proc; warnKill proc]) /\
  (length (timers g) <= 1)%nat /\
  governorStage proc g.
Proof.
  cbv zeta.
  destruct (execWithOutput_unfold cfg cmd rv sp cwd h proc t)
    as (reporter & s0 & _ & Hgov & Hrun).
  destruct (Hrun events) as (_ & _ & ->).
  assert (Hstage : governorStage proc
                     (gov (fold_left (stepWithOutput cmd reporter proc) events s0))).
  { apply run_stage. rewrite Hgov. apply setExecTimeoutKill_stage. }
  split; [|split; [|exact Hstage]].
  - destruct Hstage as [(Hc & _) | [(Hc & _) | (Hc & _)]]; auto.
  - destruct Hstage as [(_ & [Ht|(d & Ht)]) | [(_ & [Ht|Ht]) | (_ & Ht)]];
      rewrite Ht; simpl; lia.
Qed.

(** ** [exec]: what its caller receives *)

(** X3.  [exec] resolves with the three arguments of the first call of
    the callback it gave to [shelljs.exec], unchanged (a null code and
    the stderr text included); whatever comes before (chunks, the exit,
    timers) or after (a second callback as well) does not alter it. *)
Theorem exec_resolves_with_first_callback
    (cfg : Settings) (cmd : string) (cwd : option string)
    (h : Host) (proc : ChildProcess) (t : ProcessTree) (pre post : list Event)
    (c : option Z) (out err : string) :
  forallb (fun ev => negb (isCallback ev)) pre = true ->
  run_result (exec cfg cmd cwd None h (Spawned proc) t
                (pre ++ EvCallback c out err :: post))
  = Resolved {| code := c; stdout := out; stderr := err |}.
Proof.
  intros Hpre. unfold exec. destruct (execOpts cfg cwd h) as [opts h'].
  unfold execCore. simpl.
  set (s0 := {| core_promise := Pending;
                core_gov := setExecTimeoutKill cfg proc (newGovernor t) |}).
  assert (Hp : core_promise (fold_left stepCore pre s0) = Pending)
    by now apply runCore_pending.
  rewrite fold_left_app. simpl.
  rewrite runCore_settled; simpl; rewrite Hp; simpl; [reflexivity|discriminate].
Qed.

Lemma exec_resolves_with_first_callback_witness :
  run_result (exec Sample.plain "kubectl version" None None Sample.linuxHost
                (Spawned (Sample.sh "kubectl version")) Sample.shOnly
                ([EvStdout "v1"; EvExit (Some 1)]
                   ++ EvCallback (Some 1) "v1" "refused"
                   :: [EvCallback (Some 0) "" ""]))
  = Resolved {| code := Some 1; stdout := "v1"; stderr := "refused" |}.
Proof.
  apply (exec_resolves_with_first_callback Sample.plain "kubectl version" None
           Sample.linuxHost (Sample.sh "kubectl version") Sample.shOnly
           [EvStdout "v1"; EvExit (Some 1)] [EvCallback (Some 0) "" ""]
           (Some 1) "v1" "refused").
  reflexivity.
Defined.

(** X4.  Whatever is thrown while [exec] launches the command, by
    [shelljs.exec] itself or by the caller's own [callback], comes back
    as a result with code 2, an empty stdout and the stderr text
    [Failed to execute] followed by the error; the error is also shown to
    the user and logged, once. *)
Theorem exec_reports_throw_as_result
    (cfg : Settings) (cmd : string) (cwd : option string)
    (callback : option ProcCallback) (h : Host) (outcome : ShellExecOutcome)
    (t : ProcessTree) (events : list Event) (e : string) :
  outcome = Thrown e \/
  (exists proc f, outcome = Spawned proc /\ callback = Some f /\ f proc = Some e) ->
  let run := exec cfg cmd cwd callback h outcome t events in
  run_result run
  = Resolved {| code := Some 2; stdout := ""; stderr := "Failed to execute " +:+ e |} /\
  errorMessages (run_ui run) = [e] /\
  run_console_error run = [e].
Proof.
  intros Hthrow. cbv zeta. unfold exec. destruct (execOpts cfg cwd h) as [opts h'].
  assert (Hp : cr_promise (execCore cfg cmd opts callback None outcome t events)
               = Rejected e).
  { destruct Hthrow as [-> | (proc & f & -> & -> & Hf)]; [reflexivity|].
    unfold execCore. rewrite Hf. simpl. now rewrite runCore_settled. }
  rewrite Hp. now repeat split.
Qed.

Lemma exec_reports_throw_as_result_witness :
  let run :=
    exec Sample.plain "flux check" None
      (Some (fun _ : ChildProcess => Some "TypeError: not a function"))
      Sample.linuxHost (Spawned (Sample.sh "flux check")) Sample.shOnly
      [EvCallback (Some 0) "ok" ""] in
  run_result run
  = Resolved {| code := Some 2; stdout := "";
                stderr := "Failed to execute " +:+ "TypeError: not a function" |} /\
  errorMessages (run_ui run) = ["TypeError: not a function"] /\
  run_console_error run = ["TypeError: not a function"].
Proof.
  apply (exec_reports_throw_as_result Sample.plain "flux check" None
           (Some (fun _ : ChildProcess => Some "TypeError: not a function"))
           Sample.linuxHost (Spawned (Sample.sh "flux check")) Sample.shOnly
           [EvCallback (Some 0) "ok" ""] "TypeError: not a function").
  right. eexists _, _. repeat split.
Defined.

(** ** [execOpts]: what it writes and what it leaves *)

(** X5.  [execOpts] writes at most two variables of [process.env],
    KUBECONFIG and Path: every other variable, and the platform, are as
    before; off Windows Path is left alone as well. *)
Theorem execOpts_leaves_other_variables
    (cfg : Settings) (cwd : option string) (h : Host) (k : string) :
  k <> "KUBECONFIG" ->
  k <> "Path" \/ isWindows (useWsl cfg) (process_platform h) = false ->
  process_env (snd (execOpts cfg cwd h)) !! k = process_env h !! k /\
  opt_env (fst (execOpts cfg cwd h)) !! k = process_env h !! k /\
  process_platform (snd (execOpts cfg cwd h)) = process_platform h.
Proof.
  intros Hk Hp.
  assert (Henv : process_env (snd (execOpts cfg cwd h)) !! k = process_env h !! k).
  { unfold execOpts. simpl. rewrite windows_or_unix.
    assert (Hkube :
              match kubeconfig cfg with
              | Some kubeconfigPath =>
                  if negb (String.eqb kubeconfigPath "")
                  then <["KUBECONFIG" := kubeconfigPath]> (process_env h)
                  else process_env h
              | None => process_env h
              end !! k = process_env h !! k).
    { destruct (kubeconfig cfg) as [p|]; [|reflexivity].
      destruct (negb (String.eqb p "")); [|reflexivity].
      now rewrite lookup_insert_ne. }
    destruct (isWindows (useWsl cfg) (process_platform h)) eqn:Hw; [|exact Hkube].
    destruct Hp as [Hp|Hp]; [|discriminate].
    destruct (fluxPath cfg) as [fp|]; [|exact Hkube].
    destruct (truthy (Some fp)); [|exact Hkube].
    unfold appendPath. now rewrite lookup_insert_ne. }
  repeat split; exact Henv.
Qed.

Lemma execOpts_leaves_other_variables_witness :
  process_env (snd (execOpts Sample.withFlux None Sample.linuxHost)) !! "Path"
  = process_env Sample.linuxHost !! "Path" /\
  opt_env (fst (execOpts Sample.withFlux None Sample.linuxHost)) !! "Path"
  = process_env Sample.linuxHost !! "Path" /\
  process_platform (snd (execOpts Sample.withFlux None Sample.linuxHost))
  = process_platform Sample.linuxHost.
Proof.
  apply (execOpts_leaves_other_variables Sample.withFlux None Sample.linuxHost "Path").
  - discriminate.
  - right. reflexivity.
Defined.

(** X6.  Off Windows a launch leaves [process.env] such that launching
    again with the same settings changes nothing more and gives the child
    the same environment. *)
Theorem execOpts_settles_off_windows
    (cfg : Settings) (cwd : option string) (h : Host) :
  isWindows (useWsl cfg) (process_platform h) = false ->
  execOpts cfg cwd (snd (execOpts cfg cwd h)) = execOpts cfg cwd h.
Proof.
  intros Hw. unfold execOpts. simpl. rewrite Hw.
  unfold isUnix. rewrite Hw. simpl.
  destruct (kubeconfig cfg) as [k|]; [|reflexivity].
  destruct (negb (String.eqb k "")); [|reflexivity].
  now rewrite insert_insert_eq.
Qed.

Lemma execOpts_settles_off_windows_witness :
  execOpts Sample.withFlux None (snd (execOpts Sample.withFlux None Sample.linuxHost))
  = execOpts Sample.withFlux None Sample.linuxHost.
Proof.
  apply (execOpts_settles_off_windows Sample.withFlux None Sample.linuxHost).
  reflexivity.
Defined.

Lemma launches_platform (n : nat) (cfg : Settings) (h : Host) :
  process_platform (launches n cfg h) = process_platform h.
Proof. induction n as [|n IH]; [reflexivity|exact IH]. Qed.

Lemma execOpts_path_on_windows (cfg : Settings) (cwd : option string) (h : Host)
    (fp : string) :
  isWindows (useWsl cfg) (process_platform h) = true ->
  fluxPath cfg = Some fp -> fp <> "" ->
  process_env (snd (execOpts cfg cwd h)) !! "Path"
  = Some (default "undefined" (process_env h !! "Path") +:+ ";" +:+ fp).
Proof.
  intros Hw Hfp Hne. unfold execOpts. simpl. rewrite Hw, Hfp. simpl.
  apply String.eqb_neq in Hne. rewrite Hne. simpl.
  unfold appendPath. rewrite lookup_insert_eq. do 2 f_equal.
  destruct (kubeconfig cfg) as [p|]; [|reflexivity].
  destruct (negb (String.eqb p "")); [|reflexivity].
  now rewrite lookup_insert_ne.
Qed.

(** X7.  On Windows with a Flux path recorded, every launch appends the
    Flux directory to the search path of [process.env] once more: after
    [n + 1] launches Path is the original value (the text [undefined] if
    there was none) followed by [n + 1] copies of [;fluxPath]. *)
Theorem path_grows_with_each_launch
    (cfg : Settings) (h : Host) (fp : string) (n : nat) :
  isWindows (useWsl cfg) (process_platform h) = true ->
  fluxPath cfg = Some fp -> fp <> "" ->
  process_env (launches (S n) cfg h) !! "Path"
  = Some (default "undefined" (process_env h !! "Path") +:+ fluxSuffix (S n) fp).
Proof.
  intros Hw Hfp Hne. induction n as [|n IH].
  - change (launches 1 cfg h) with (snd (execOpts cfg None h)).
    now rewrite (execOpts_path_on_windows cfg None h fp).
  - change (launches (S (S n)) cfg h)
      with (snd (execOpts cfg None (launches (S n) cfg h))).
    rewrite (execOpts_path_on_windows cfg None _ fp);
      [|now rewrite launches_platform|exact Hfp|exact Hne].
    rewrite IH. simpl default. f_equal.
    change (fluxSuffix (S (S n)) fp) with (fluxSuffix (S n) fp +:+ ";" +:+ fp).
    apply append_assoc.
Qed.

Lemma path_grows_with_each_launch_witness :
  process_env (launches 3 Sample.withFlux Sample.windowsHost) !! "Path"
  = Some (default "undefined" (process_env Sample.windowsHost !! "Path")
          +:+ fluxSuffix 3 "C:\flux").
Proof.
  apply (path_grows_with_each_launch Sample.withFlux Sample.windowsHost "C:\flux" 2).
  - reflexivity.
  - reflexivity.
  - discriminate.
Defined.

(** ** Splitting and trimming *)

Section SplitFacts.

Lemma append_cons (c : ascii) (a b : string) :
  String c a +:+ b = String c (a +:+ b).
Proof. reflexivity. Qed.

Lemma prefix_other_head (c0 c : ascii) (sep' r : string) :
  Ascii.eqb c c0 = false -> String.prefix (String c0 sep') (String c r) = false.
Proof.
  intros Hc. simpl. destruct (ascii_dec c0 c) as [->|_]; [|reflexivity].
  now rewrite Ascii.eqb_refl in Hc.
Qed.

Lemma prefix_append (a b : string) : String.prefix a (a +:+ b) = true.
Proof.
  induction a as [|c a IH]; [now destruct b|].
  rewrite append_cons. simpl. now destruct (ascii_dec c c).
Qed.

(** A stretch of text without the first character of the separator
    moves into the current piece as it is. *)
Lemma splitGo_avoids (c0 : ascii) (sep' a : string) : forall cur rest,
  avoids c0 a = true ->
  splitGo (String c0 sep') 0 cur (a +:+ rest)
  = splitGo (String c0 sep') 0 (cur +:+ a) rest.
Proof.
  induction a as [|c a IH]; intros cur rest Ha.
  - now rewrite append_nil_r.
  - simpl in Ha. apply andb_prop in Ha as [Hc Ha]. apply negb_true_iff in Hc.
    rewrite append_cons. cbn [splitGo].
    rewrite (prefix_other_head c0 c sep' _ Hc), IH by exact Ha.
    now rewrite append_assoc.
Qed.

Lemma splitGo_skip (sep a : string) : forall cur rest,
  splitGo sep (String.length a) cur (a +:+ rest) = splitGo sep 0 cur rest.
Proof.
  induction a as [|c a IH]; intros cur rest; [reflexivity|].
  rewrite append_cons. cbn [splitGo String.length]. apply IH.
Qed.

(** At an occurrence of the separator the current piece is closed. *)
Lemma splitGo_separator (c0 : ascii) (sep' cur rest : string) :
  splitGo (String c0 sep') 0 cur (String c0 sep' +:+ rest)
  = cur :: splitGo (String c0 sep') 0 "" rest.
Proof.
  rewrite append_cons. cbn [splitGo].
  rewrite <- append_cons, prefix_append. f_equal.
  cbn [String.length]. rewrite Nat.sub_1_r. simpl Nat.pred. apply splitGo_skip.
Qed.

Lemma avoids_append (c : ascii) (a b : string) :
  avoids c (a +:+ b) = avoids c a && avoids c b.
Proof.
  induction a as [|x a IH]; [reflexivity|].
  rewrite append_cons. simpl. now rewrite IH, andb_assoc.
Qed.

Lemma plainText_avoids (s : string) :
  plainText s = true ->
  avoids " " s = true /\ avoids (ascii_of_nat 10) s = true.
Proof.
  induction s as [|c s IH]; [now split|]. simpl.
  intros [[Hsp Hlf]%andb_prop Hs]%andb_prop. destruct (IH Hs) as [H1 H2].
  now rewrite Hsp, Hlf, H1, H2.
Qed.

Lemma trimEnd_cons (c : ascii) (r : string) :
  trimEnd (String c r)
  = if allWhiteSpace (String c r) then "" else String c (trimEnd r).
Proof. reflexivity. Qed.

(** A text that does not begin with white space is its own
    [trimStart]. *)
Lemma trimStart_fixed (s : string) :
  startsWithWhiteSpace s = false -> trimStart s = s.
Proof.
  destruct s as [|c1 r1]; [reflexivity|]. cbn [startsWithWhiteSpace trimStart].
  destruct (isWhiteSpace1 c1); [discriminate|]. cbn [orb].
  destruct r1 as [|c2 r2]; [reflexivity|].
  destruct (isWhiteSpace2 c1 c2); [discriminate|]. cbn [orb].
  destruct r2 as [|c3 r3]; [reflexivity|].
  now intros ->.
Qed.

Lemma trimStart_head_aux (n : nat) : forall s,
  (String.length s <= n)%nat -> startsWithWhiteSpace (trimStart s) = false.
Proof.
  induction n as [|n IH]; intros s Hlen.
  - destruct s; [reflexivity|simpl in Hlen; lia].
  - destruct s as [|c1 r1]; [reflexivity|]. cbn [String.length] in Hlen.
    cbn [trimStart]. destruct (isWhiteSpace1 c1) eqn:H1; [apply IH; lia|].
    destruct r1 as [|c2 r2];
      [cbn [startsWithWhiteSpace]; now rewrite H1|]. cbn [String.length] in Hlen.
    destruct (isWhiteSpace2 c1 c2) eqn:H2; [apply IH; lia|].
    destruct r2 as [|c3 r3];
      [cbn [startsWithWhiteSpace]; now rewrite H1, H2|]. cbn [String.length] in Hlen.
    destruct (isWhiteSpace3 c1 c2 c3) eqn:H3; [apply IH; lia|].
    cbn [startsWithWhiteSpace]. now rewrite H1, H2, H3.
Qed.

(** [trimStart] leaves no white space at the head. *)
Lemma trimStart_head (s : string) : startsWithWhiteSpace (trimStart s) = false.
Proof. now apply (trimStart_head_aux (String.length s)). Qed.

Lemma allWhiteSpace_trimEnd_aux (n : nat) : forall s,
  (String.length s <= n)%nat ->
  allWhiteSpace (trimEnd s) = true -> allWhiteSpace s = true.
Proof.
  induction n as [|n IH]; intros s Hlen.
  - destruct s; [reflexivity|simpl in Hlen; lia].
  - destruct s as [|c1 r1]; [reflexivity|]. cbn [String.length] in Hlen.
    rewrite trimEnd_cons.
    destruct (allWhiteSpace (String c1 r1)) eqn:Hall; [reflexivity|].
    intros H. rewrite <- Hall. cbn [allWhiteSpace] in H |- *.
    destruct (isWhiteSpace1 c1); [apply IH; [lia|exact H]|].
    destruct r1 as [|c2 r2]; [discriminate H|]. cbn [String.length] in Hlen.
    rewrite trimEnd_cons in H.
    destruct (allWhiteSpace (String c2 r2)) eqn:Hall2; [discriminate H|].
    destruct (isWhiteSpace2 c1 c2); [apply IH; [lia|exact H]|].
    destruct r2 as [|c3 r3]; [discriminate H|]. cbn [String.length] in Hlen.
    rewrite trimEnd_cons in H.
    destruct (allWhiteSpace (String c3 r3)) eqn:Hall3; [discriminate H|].
    apply andb_prop in H as [-> H]. cbn [andb]. apply IH; [lia|exact H].
Qed.

(** What [trimEnd] keeps is not white space only, unless the whole text
    was. *)
Lemma allWhiteSpace_trimEnd (s : string) :
  allWhiteSpace (trimEnd s) = true -> allWhiteSpace s = true.
Proof. now apply (allWhiteSpace_trimEnd_aux (String.length s)). Qed.

Lemma trimEnd_idempotent (s : string) : trimEnd (trimEnd s) = trimEnd s.
Proof.
  induction s as [|c r IH]; [reflexivity|].
  rewrite trimEnd_cons.
  destruct (allWhiteSpace (String c r)) eqn:Hall; [reflexivity|].
  rewrite trimEnd_cons, IH.
  destruct (allWhiteSpace (String c (trimEnd r))) eqn:Hkept; [|reflexivity].
  assert (Hwhole : allWhiteSpace (trimEnd (String c r)) = true)
    by (rewrite trimEnd_cons, Hall; exact Hkept).
  apply allWhiteSpace_trimEnd in Hwhole. congruence.
Qed.

(** Cutting the end of a text brings no white space to its head. *)
Lemma trimEnd_head (s : string) :
  startsWithWhiteSpace s = false -> startsWithWhiteSpace (trimEnd s) = false.
Proof.
  destruct s as [|c1 r1]; [reflexivity|].
  rewrite trimEnd_cons. destruct (allWhiteSpace (String c1 r1)); [reflexivity|].
  cbn [startsWithWhiteSpace].
  destruct (isWhiteSpace1 c1); [discriminate|]. cbn [orb].
  destruct r1 as [|c2 r2]; [reflexivity|].
  rewrite trimEnd_cons. destruct (allWhiteSpace (String c2 r2)); [reflexivity|].
  destruct (isWhiteSpace2 c1 c2); [discriminate|]. cbn [orb].
  destruct r2 as [|c3 r3]; [reflexivity|].
  rewrite trimEnd_cons. destruct (allWhiteSpace (String c3 r3)); [reflexivity|].
  now intros ->.
Qed.

(** [trim] leaves nothing to trim. *)
Lemma trim_idempotent (s : string) : trim (trim s) = trim s.
Proof.
  unfold trim.
  rewrite (trimStart_fixed (trimEnd (trimStart s)))
    by apply trimEnd_head, trimStart_head.
  apply trimEnd_idempotent.
Qed.

Lemma numberToString_nonempty (c : option Z) : numberToString c <> "".
Proof.
  destruct c as [z|]; [|discriminate]. unfold numberToString.
  destruct (Z.to_int z) as [d|d]; simpl; [|discriminate].
  unfold DecimalString.NilZero.string_of_uint. destruct d; discriminate.
Qed.

End SplitFacts.

(** ** Checking a downloaded archive against the checksums file *)

Section Checksums.

Lemma split_fields (sum name : string) :
  plainText sum = true -> plainText name = true ->
  split "  " (sum +:+ "  " +:+ name) = [sum; name].
Proof.
  intros [Hsum _]%plainText_avoids [Hname _]%plainText_avoids.
  change (split "  " (sum +:+ "  " +:+ name))
    with (splitGo "  " 0 "" (sum +:+ "  " +:+ name)).
  rewrite (splitGo_avoids " " " " sum "" _ Hsum).
  change ("" +:+ sum) with sum.
  rewrite (splitGo_separator " " " " sum name). f_equal.
  rewrite <- (append_nil_r name) at 1.
  now rewrite (splitGo_avoids " " " " name "" "" Hname).
Qed.

Lemma split_lines (entries : list (string * string)) :
  plainEntries entries = true ->
  split LF (checksumsFile entries)
  = map (fun e => fst e +:+ "  " +:+ snd e) entries ++ [""].
Proof.
  change (split LF (checksumsFile entries))
    with (splitGo LF 0 "" (checksumsFile entries)).
  induction entries as [|[sum name] entries IH]; intros Hplain; [reflexivity|].
  simpl in Hplain. apply andb_prop in Hplain as [[Hsum Hname]%andb_prop Hrest].
  destruct (plainText_avoids sum Hsum) as [_ Hsum'].
  destruct (plainText_avoids name Hname) as [_ Hname'].
  cbn [checksumsFile map fst snd].
  replace (sum +:+ "  " +:+ name +:+ LF +:+ checksumsFile entries)
    with ((sum +:+ "  " +:+ name) +:+ LF +:+ checksumsFile entries)
    by now rewrite !append_assoc.
  change LF with (String (ascii_of_nat 10) "") in IH |- *.
  rewrite splitGo_avoids
    by (rewrite !avoids_append, Hsum', Hname'; reflexivity).
  change ("" +:+ sum +:+ "  " +:+ name) with (sum +:+ "  " +:+ name).
  rewrite splitGo_separator. now rewrite IH.
Qed.

Lemma line_nonempty (sum name : string) :
  negb (String.eqb (sum +:+ "  " +:+ name) "") = true.
Proof. now destruct sum. Qed.

Lemma parsed_lines (entries : list (string * string)) :
  plainEntries entries = true ->
  map (split "  ")
    (List.filter (fun line => negb (String.eqb line ""))
       (split LF (checksumsFile entries)))
  = map (fun e => [fst e; snd e]) entries.
Proof.
  intros Hplain. rewrite split_lines by exact Hplain.
  rewrite List.filter_app. simpl. rewrite app_nil_r.
  induction entries as [|[sum name] entries IH]; [reflexivity|].
  simpl in Hplain. apply andb_prop in Hplain as [[Hsum Hname]%andb_prop Hrest].
  cbn [map List.filter fst snd]. rewrite line_nonempty.
  cbn [map]. rewrite split_fields by assumption. f_equal. now apply IH.
Qed.

Lemma find_map_fields (p : list string -> bool) (entries : list (string * string)) :
  find p (map (fun e => [fst e; snd e]) entries)
  = option_map (fun e => [fst e; snd e])
      (find (fun e => p [fst e; snd e]) entries).
Proof.
  induction entries as [|e entries IH]; [reflexivity|]. simpl.
  destruct (p [fst e; snd e]); [reflexivity|exact IH].
Qed.

End Checksums.

(** X8.  On a checksums file in the documented format (one line per
    archive: checksum, two spaces, file name; no spaces or line feeds
    inside either), [checkChecksum] looks the archive up by name and the
    first line naming it decides: the check succeeds exactly when that
    line carries the computed checksum, reports a mismatch when it
    carries another, and reports the file as not found when no line
    names it. *)
Theorem checkChecksum_on_checksums_file
    (entries : list (string * string)) (targetFileName computedChecksum : string) :
  plainEntries entries = true ->
  checkChecksum (checksumsFile entries) targetFileName computedChecksum
  = match find (fun e => String.eqb (snd e) targetFileName) entries with
    | Some e =>
        if String.eqb (fst e) computedChecksum then Succeeded tt
        else Failed ["Checksum mismatch for the file " +:+ targetFileName]
    | None => Failed ["File not found in the checksums.txt file " +:+ targetFileName]
    end.
Proof.
  intros Hplain. unfold checkChecksum.
  rewrite parsed_lines by exact Hplain.
  rewrite find_map_fields. simpl.
  destruct (find (fun e => String.eqb (snd e) targetFileName) entries) as [e|];
    reflexivity.
Qed.

Lemma checkChecksum_on_checksums_file_witness :
  checkChecksum
    (checksumsFile [("059c316a", "flux_0.25.2_darwin_amd64.tar.gz");
                    ("2b85eec6", "flux_0.25.2_windows_386.zip")])
    "flux_0.25.2_windows_386.zip" "2b85eec6"
  = match find (fun e => String.eqb (snd e) "flux_0.25.2_windows_386.zip")
            [("059c316a", "flux_0.25.2_darwin_amd64.tar.gz");
             ("2b85eec6", "flux_0.25.2_windows_386.zip")] with
    | Some e =>
        if String.eqb (fst e) "2b85eec6" then Succeeded tt
        else Failed ["Checksum mismatch for the file " +:+ "flux_0.25.2_windows_386.zip"]
    | None => Failed ["File not found in the checksums.txt file "
                      +:+ "flux_0.25.2_windows_386.zip"]
    end.
Proof.
  apply (checkChecksum_on_checksums_file
           [("059c316a", "flux_0.25.2_darwin_amd64.tar.gz");
            ("2b85eec6", "flux_0.25.2_windows_386.zip")]
           "flux_0.25.2_windows_386.zip" "2b85eec6").
  reflexivity.
Defined.

(** X9.  Whatever the checksums file holds, [checkChecksum] succeeds only
    if some non-empty line of it, cut at double spaces, has the computed
    checksum as its first field and the file name as its second; and it
    fails with exactly one message. *)
Theorem checkChecksum_sound
    (checksumFileContents targetFileName computedChecksum : string) :
  (checkChecksum checksumFileContents targetFileName computedChecksum = Succeeded tt ->
   exists line,
     In line (split LF checksumFileContents) /\ line <> "" /\
     split "  " line !! 0%nat = Some computedChecksum /\
     split "  " line !! 1%nat = Some targetFileName) /\
  (forall errors,
      checkChecksum checksumFileContents targetFileName computedChecksum = Failed errors ->
      errors = ["File not found in the checksums.txt file " +:+ targetFileName] \/
      errors = ["Checksum mismatch for the file " +:+ targetFileName]).
Proof.
  unfold checkChecksum.
  destruct (find _ _) as [fields|] eqn:Hfind.
  - apply find_some in Hfind as [Hin Hname].
    apply in_map_iff in Hin as (line & <- & Hline).
    apply List.filter_In in Hline as [Hline Hne].
    split.
    + destruct (split "  " line !! 0%nat) as [sum|] eqn:Hsum; [|discriminate].
      destruct (String.eqb sum computedChecksum) eqn:Heq; [|discriminate].
      intros _. exists line. split; [exact Hline|]. split.
      * intros ->. discriminate.
      * apply String.eqb_eq in Heq as ->. split; [exact Hsum|].
        destruct (split "  " line !! 1%nat) as [name|] eqn:Hfield; [|discriminate].
        now apply String.eqb_eq in Hname as ->.
    + intros errors.
      destruct (match split "  " line !! 0%nat with
                | Some sum => String.eqb sum computedChecksum
                | None => false
                end); [discriminate|].
      intros [= <-]. now right.
  - split; [discriminate|]. intros errors [= <-]. now left.
Qed.

Lemma checkChecksum_sound_witness :
  exists line,
    In line (split LF "2b85eec6  flux.zip") /\ line <> "" /\
    split "  " line !! 0%nat = Some "2b85eec6" /\
    split "  " line !! 1%nat = Some "flux.zip".
Proof.
  destruct (checkChecksum_sound "2b85eec6  flux.zip" "flux.zip" "2b85eec6")
    as [Hsound _].
  apply Hsound. reflexivity.
Defined.

(** ** Probing the machine through [shell.exec] *)

Lemma orElse_nonempty (a b : string) : b <> "" -> orElse a b <> "".
Proof.
  intros Hb. unfold orElse. destruct (String.eqb a "") eqn:Ha; [exact Hb|].
  now apply String.eqb_neq.
Qed.

(** X10.  When [computeChecksumWindows] succeeds, the command it gave to
    the shell resolved with exit code 0 and the checksum it returns is
    the second line of the command's stdout with the white space around
    it removed: it is not empty and has no white space left at either
    end.  A failure carries exactly one message. *)
Theorem computeChecksumWindows_returns_second_line
    (shell_exec : ShellExec) (filePath : string) (hashAlgorithm : HashAlgorithm) :
  (forall checksum,
      computeChecksumWindows shell_exec filePath hashAlgorithm
      = Returned (Succeeded checksum) ->
      exists shellResult line,
        shell_exec ("CertUtil -hashfile " +:+ DQ +:+ filePath +:+ DQ +:+ " "
                    +:+ hashAlgorithmName hashAlgorithm) = Resolved shellResult /\
        code shellResult = Some 0 /\
        split LF (stdout shellResult) !! 1%nat = Some line /\
        checksum = trim line /\ checksum <> "" /\ trim checksum = checksum) /\
  (forall errors,
      computeChecksumWindows shell_exec filePath hashAlgorithm
      = Returned (Failed errors) ->
      exists message, errors = [message] /\ message <> "").
Proof.
  unfold computeChecksumWindows.
  destruct (shell_exec _) as [|r|e]; cbn [await];
    [split; intros x Hx; discriminate Hx| |split; intros x Hx; discriminate Hx].
  assert (Hmsg : forall errors : list string,
             Returned (@Failed string
                         ["Failed to compute checksum of the file " +:+ DQ +:+ filePath
                          +:+ DQ +:+ ". " +:+ orElse (stderr r) (stdout r)])
             = Returned (Failed errors) ->
             exists message, errors = [message] /\ message <> "").
  { intros errors [= <-]. eexists. split; [reflexivity|discriminate]. }
  destruct (code r) as [[| |]|] eqn:Hcode;
    try (split; [intros k Hk0; discriminate Hk0|exact Hmsg]).
  destruct (split LF (stdout r) !! 1%nat) as [line|] eqn:Hline;
    [|split; [intros k Hk0; discriminate Hk0|exact Hmsg]].
  destruct (String.eqb (trim line) "") eqn:Hk; cbn [negb];
    [split; [intros k Hk0; discriminate Hk0|exact Hmsg]|].
  split; [|intros x Hx; discriminate Hx].
  intros checksum [= <-]. exists r, line.
  split; [reflexivity|]. split; [exact Hcode|]. split; [exact Hline|].
  split; [reflexivity|]. split; [now apply String.eqb_neq|apply trim_idempotent].
Qed.

(** White space of any kind around the second line is removed, and a
    second line of white space only is a failure. *)
Example computeChecksumWindows_examples :
  let prints text : ShellExec :=
    fun _ => Resolved {| code := Some 0; stdout := text; stderr := "" |} in
  computeChecksumWindows
    (prints ("SHA256 hash of flux.zip:" +:+ LF +:+ NBSP +:+ "2b85eec6" +:+ NBSP
             +:+ String (ascii_of_nat 13) "" +:+ LF +:+ "CertUtil: done"))
    "flux.zip" SHA256
  = Returned (Succeeded "2b85eec6") /\
  computeChecksumWindows
    (prints ("SHA256 hash of flux.zip:" +:+ LF +:+ NBSP +:+ LF +:+ "CertUtil: done"))
    "flux.zip" SHA256
  = Returned (Failed ["Failed to compute checksum of the file " +:+ DQ +:+ "flux.zip"
                      +:+ DQ +:+ ". " +:+ "SHA256 hash of flux.zip:" +:+ LF +:+ NBSP
                      +:+ LF +:+ "CertUtil: done"]).
Proof. cbv zeta. split; vm_compute; reflexivity. Qed.

Lemma computeChecksumWindows_returns_second_line_witness :
  exists shellResult line,
    (fun _ : string =>
       Resolved {| code := Some 0;
                   stdout := "SHA256 hash of flux.zip:" +:+ LF +:+ "2b85eec6 " +:+ LF
                             +:+ "CertUtil: -hashfile command completed successfully.";
                   stderr := "" |})
      ("CertUtil -hashfile " +:+ DQ +:+ "flux.zip" +:+ DQ +:+ " "
       +:+ hashAlgorithmName SHA256) = Resolved shellResult /\
    code shellResult = Some 0 /\
    split LF (stdout shellResult) !! 1%nat = Some line /\
    "2b85eec6" = trim line /\ "2b85eec6" <> "" /\ trim "2b85eec6" = "2b85eec6".
Proof.
  destruct (computeChecksumWindows_returns_second_line
              (fun _ : string =>
                 Resolved {| code := Some 0;
                             stdout := "SHA256 hash of flux.zip:" +:+ LF
                                       +:+ "2b85eec6 " +:+ LF
                                       +:+ "CertUtil: -hashfile command completed successfully.";
                             stderr := "" |})
              "flux.zip" SHA256) as [Hok _].
  apply Hok. reflexivity.
Defined.

(** X11.  [isGoFishInstalled] answers yes exactly when [gofish version]
    resolved with exit code 0; every other result (a non-zero code, a
    null code after a timeout) gives a failure with one message that is
    never empty: the stderr text, or the code as text when stderr is
    empty. *)
Theorem isGoFishInstalled_by_exit_code (shell_exec : ShellExec) :
  (isGoFishInstalled shell_exec = Returned (Succeeded tt) <->
   exists r, shell_exec "gofish version" = Resolved r /\ code r = Some 0) /\
  (forall errors,
      isGoFishInstalled shell_exec = Returned (Failed errors) ->
      exists r message,
        shell_exec "gofish version" = Resolved r /\ code r <> Some 0 /\
        errors = [message] /\ message <> "" /\
        message = orElse (stderr r) (numberToString (code r))).
Proof.
  unfold isGoFishInstalled.
  destruct (shell_exec "gofish version") as [|r|e]; simpl.
  - split; [split; [discriminate|intros (r & [=] & _)]|discriminate].
  - split.
    + split.
      * intros H. exists r. split; [reflexivity|].
        destruct (code r) as [[| |]|]; try discriminate. reflexivity.
      * intros (r' & [= <-] & ->). reflexivity.
    + intros errors H. exists r.
      assert (Hne : code r <> Some 0 /\
                    errors = [orElse (stderr r) (numberToString (code r))]).
      { destruct (code r) as [[| |]|]; try discriminate H;
          injection H as <-; (split; [discriminate|reflexivity]). }
      destruct Hne as [Hc ->]. eexists.
      split; [reflexivity|]. split; [exact Hc|]. split; [reflexivity|].
      split; [|reflexivity]. apply orElse_nonempty, numberToString_nonempty.
  - split; [split; [discriminate|intros (r & [=] & _)]|discriminate].
Qed.

(** X12.  Run through the real [exec], the two probes never throw: a
    launch that throws reaches them as the code-2 result of [exec], so
    [computeChecksumWindows] returns a failure whose message quotes the
    file and the error, and [isGoFishInstalled] returns a failure with
    the error text. *)
Theorem probes_never_throw
    (cfg : Settings) (h : Host) (outcome : string -> ShellExecOutcome)
    (t : ProcessTree) (events : string -> list Event)
    (filePath : string) (hashAlgorithm : HashAlgorithm) :
  let shell_exec : ShellExec :=
    fun cmd => run_result (exec cfg cmd None None h (outcome cmd) t (events cmd)) in
  (forall e, computeChecksumWindows shell_exec filePath hashAlgorithm <> Raised e) /\
  (forall e, isGoFishInstalled shell_exec <> Raised e) /\
  (forall e,
      outcome ("CertUtil -hashfile " +:+ DQ +:+ filePath +:+ DQ +:+ " "
               +:+ hashAlgorithmName hashAlgorithm) = Thrown e ->
      computeChecksumWindows shell_exec filePath hashAlgorithm
      = Returned (Failed ["Failed to compute checksum of the file " +:+ DQ +:+ filePath
                          +:+ DQ +:+ ". " +:+ "Failed to execute " +:+ e])) /\
  (forall e,
      outcome "gofish version" = Thrown e ->
      isGoFishInstalled shell_exec = Returned (Failed ["Failed to execute " +:+ e])).
Proof.
  cbv zeta. split; [|split; [|split]].
  - intros e. unfold computeChecksumWindows.
    destruct (run_result _) as [|r|e'] eqn:Hr; cbn [await].
    + discriminate.
    + repeat case_match; discriminate.
    + now apply exec_never_rejects in Hr.
  - intros e. unfold isGoFishInstalled.
    destruct (run_result _) as [|r|e'] eqn:Hr; cbn [await].
    + discriminate.
    + repeat case_match; discriminate.
    + now apply exec_never_rejects in Hr.
  - intros e He. unfold computeChecksumWindows. rewrite He.
    unfold exec. destruct (execOpts cfg None h) as [opts h']. reflexivity.
  - intros e He. unfold isGoFishInstalled. rewrite He.
    unfold exec. destruct (execOpts cfg None h) as [opts h']. reflexivity.
Qed.

Lemma probes_never_throw_witness :
  isGoFishInstalled
    (fun cmd => run_result (exec Sample.plain cmd None None Sample.linuxHost
                              ((fun _ => Thrown "Error: spawn E2BIG") cmd)
                              Sample.shOnly ((fun _ => []) cmd)))
  = Returned (Failed ["Failed to execute " +:+ "Error: spawn E2BIG"]).
Proof.
  destruct (probes_never_throw Sample.plain Sample.linuxHost
              (fun _ => Thrown "Error: spawn E2BIG") Sample.shOnly (fun _ => [])
              "flux.zip" SHA256) as (_ & _ & _ & Hgofish).
  apply Hgofish. reflexivity.
Defined.

(** X13.  The archive [installFluxCli] downloads on Windows is the arm64
    one when [os.arch()] is [arm64] and the amd64 one for every other
    architecture, a 32-bit one included: the name never ends in
    [_386.zip]. *)
Theorem windows_archive_is_arm64_or_amd64 (latestFluxVersion os_arch : string) :
  (os_arch = "arm64" /\
   gitHubAssetArchiveName latestFluxVersion os_arch
   = "flux_" +:+ latestFluxVersion +:+ "_windows_arm64.zip") \/
  (os_arch <> "arm64" /\
   gitHubAssetArchiveName latestFluxVersion os_arch
   = "flux_" +:+ latestFluxVersion +:+ "_windows_amd64.zip").
Proof.
  unfold gitHubAssetArchiveName, archString.
  destruct (String.eqb os_arch "arm64") eqn:Harch.
  - left. split; [now apply String.eqb_eq|reflexivity].
  - right. split; [now apply String.eqb_neq|reflexivity].
Qed.

(** ** Asking git about a folder *)

Section GitFacts.

Variables (sh : ShellExecWithOutput) (cwd : string).

Lemma exitedZero_code (r : ShellResult) : exitedZero r = true <-> code r = Some 0.
Proof.
  unfold exitedZero. destruct (code r) as [[| |]|]; split; congruence.
Qed.

Lemma truthy_Some (v : option string) :
  truthy v = true -> exists s, v = Some s /\ s <> "".
Proof.
  destruct v as [s|]; [|discriminate]. simpl. intros H%negb_true_iff.
  exists s. split; [reflexivity|now apply String.eqb_neq].
Qed.

Lemma checkIfInsideGitRepository_spec (s0 : Session) (a : Async bool) (s1 : Session) :
  checkIfInsideGitRepository sh cwd s0 = (a, s1) ->
  ses_calls s1
  = ses_calls s0 ++ [("git rev-parse --is-inside-work-tree", Some cwd, false)] /\
  (a = Returned true ->
   ses_errors s1 = ses_errors s0 /\
   exists r, sh "git rev-parse --is-inside-work-tree" (Some cwd) false = Resolved r /\
             code r = Some 0) /\
  (a = Returned false ->
   ses_errors s1 = ses_errors s0 ++ ["Not a git repository " +:+ cwd] /\
   exists r, sh "git rev-parse --is-inside-work-tree" (Some cwd) false = Resolved r /\
             code r <> Some 0) /\
  (a <> Returned true -> a <> Returned false -> ses_errors s1 = ses_errors s0).
Proof.
  unfold checkIfInsideGitRepository, bind, execWithOutputTask, showErrorMessage, ret.
  destruct (sh _ _ _) as [|r|e] eqn:Hsh; cbn [await].
  - intros [= <- <-]. repeat split; try discriminate; reflexivity.
  - destruct (exitedZero r) eqn:Hz; cbn [negb]; intros [= <- <-]; cbn [ses_calls ses_errors].
    + split; [reflexivity|]. split; [|split; [discriminate|congruence]].
      intros _. split; [reflexivity|]. exists r. split; [reflexivity|].
      now apply exitedZero_code.
    + split; [reflexivity|]. split; [discriminate|]. split; [|congruence].
      intros _. split; [reflexivity|]. exists r. split; [reflexivity|].
      intros Hc%exitedZero_code. congruence.
  - intros [= <- <-]. repeat split; try discriminate; reflexivity.
Qed.

Lemma getGitOriginUrl_spec (s0 : Session) (a : Async (option string)) (s1 : Session) :
  getGitOriginUrl sh cwd s0 = (a, s1) ->
  querySpec sh cwd "git ls-remote --get-url origin" "Failed to get origin url " s0 a s1.
Proof.
  unfold getGitOriginUrl, querySpec, bind, execWithOutputTask, showErrorMessage, ret.
  destruct (sh _ _ _) as [|r|e] eqn:Hsh; cbn [await].
  - intros [= <- <-]. repeat split; try discriminate; intros; discriminate.
  - destruct (exitedZero r) eqn:Hz; cbn [negb]; intros [= <- <-]; cbn [ses_calls ses_errors].
    + split; [reflexivity|]. split; [|discriminate].
      intros v [= <-]. split; [reflexivity|]. exists r. split; [reflexivity|].
      split; [now apply exitedZero_code|reflexivity].
    + split; [reflexivity|]. split; [intros v Hv; discriminate Hv|].
      intros _. exists r. split; [reflexivity|]. split; [|reflexivity].
      intros Hc%exitedZero_code. congruence.
  - intros [= <- <-]. repeat split; try discriminate; intros; discriminate.
Qed.

Lemma getGitBranch_spec (s0 : Session) (a : Async (option string)) (s1 : Session) :
  getGitBranch sh cwd s0 = (a, s1) ->
  querySpec sh cwd "git rev-parse --abbrev-ref HEAD" "Failed to get current git branch "
    s0 a s1.
Proof.
  unfold getGitBranch, querySpec, bind, execWithOutputTask, showErrorMessage, ret.
  destruct (sh _ _ _) as [|r|e] eqn:Hsh; cbn [await].
  - intros [= <- <-]. repeat split; try discriminate; intros; discriminate.
  - destruct (exitedZero r) eqn:Hz; cbn [negb]; intros [= <- <-]; cbn [ses_calls ses_errors].
    + split; [reflexivity|]. split; [|discriminate].
      intros v [= <-]. split; [reflexivity|]. exists r. split; [reflexivity|].
      split; [now apply exitedZero_code|reflexivity].
    + split; [reflexivity|]. split; [intros v Hv; discriminate Hv|].
      intros _. exists r. split; [reflexivity|]. split; [|reflexivity].
      intros Hc%exitedZero_code. congruence.
  - intros [= <- <-]. repeat split; try discriminate; intros; discriminate.
Qed.

End GitFacts.

(** X14.  When [getGitRepositoryState] returns a state, the three git
    commands were run in order in the given folder, without revealing the
    output view, and each resolved with exit code 0; the url and the
    branch are the trimmed stdout of the second and third, neither is
    empty, and no error message was shown. *)
Theorem getGitRepositoryState_returns_checked_state
    (sh : ShellExecWithOutput) (cwd : string) (s0 s1 : Session)
    (st : GitRepositoryState) :
  getGitRepositoryState sh cwd s0 = (Returned (Some st), s1) ->
  (exists r1 r2 r3,
      sh "git rev-parse --is-inside-work-tree" (Some cwd) false = Resolved r1 /\
      code r1 = Some 0 /\
      sh "git ls-remote --get-url origin" (Some cwd) false = Resolved r2 /\
      code r2 = Some 0 /\
      sh "git rev-parse --abbrev-ref HEAD" (Some cwd) false = Resolved r3 /\
      code r3 = Some 0 /\
      url st = trim (stdout r2) /\ branch st = trim (stdout r3)) /\
  url st <> "" /\ branch st <> "" /\
  ses_calls s1
  = ses_calls s0 ++ [("git rev-parse --is-inside-work-tree", Some cwd, false);
                     ("git ls-remote --get-url origin", Some cwd, false);
                     ("git rev-parse --abbrev-ref HEAD", Some cwd, false)] /\
  ses_errors s1 = ses_errors s0.
Proof.
  unfold getGitRepositoryState, bind at 1.
  destruct (checkIfInsideGitRepository sh cwd s0) as [a1 sa] eqn:H1.
  destruct a1 as [| |[|]]; cbn [negb]; try discriminate.
  destruct (checkIfInsideGitRepository_spec sh cwd s0 _ sa H1)
    as (Hc1 & Hin & _ & _).
  destruct (Hin eq_refl) as (He1 & r1 & Hr1 & Hz1).
  unfold bind at 1.
  destruct (getGitOriginUrl sh cwd sa) as [a2 sb] eqn:H2.
  destruct a2 as [| |gitUrl]; try discriminate.
  destruct (truthy gitUrl) eqn:Hu; cbn [negb]; [|discriminate].
  apply truthy_Some in Hu as (u & -> & Hune).
  destruct (getGitOriginUrl_spec sh cwd sa _ sb H2) as (Hc2 & Hok2 & _).
  destruct (Hok2 u eq_refl) as (He2 & r2 & Hr2 & Hz2 & Hu).
  unfold bind.
  destruct (getGitBranch sh cwd sb) as [a3 sc] eqn:H3.
  destruct a3 as [| |gitBranch]; try discriminate.
  destruct (truthy gitBranch) eqn:Hb; cbn [negb]; [|discriminate].
  apply truthy_Some in Hb as (b & -> & Hbne).
  destruct (getGitBranch_spec sh cwd sb _ sc H3) as (Hc3 & Hok3 & _).
  destruct (Hok3 b eq_refl) as (He3 & r3 & Hr3 & Hz3 & Hb).
  unfold ret. intros [= <- <-]. cbn [url branch default].
  split; [now exists r1, r2, r3|].
  split; [exact Hune|]. split; [exact Hbne|]. split.
  - rewrite Hc3, Hc2, Hc1, <- !app_assoc. reflexivity.
  - now rewrite He3, He2, He1.
Qed.

Lemma getGitRepositoryState_returns_checked_state_witness :
  url {| url := "https://github.com/fluxcd/flux2"; branch := "main" |} <> "" /\
  branch {| url := "https://github.com/fluxcd/flux2"; branch := "main" |} <> "".
Proof.
  destruct (getGitRepositoryState_returns_checked_state
              (fun cmd _ _ =>
                 Resolved {| code := Some 0;
                             stdout :=
                               if String.eqb cmd "git ls-remote --get-url origin"
                               then "https://github.com/fluxcd/flux2" +:+ LF
                               else if String.eqb cmd "git rev-parse --abbrev-ref HEAD"
                                    then "main" +:+ LF
                                    else "true" +:+ LF;
                             stderr := "" |})
              "/home/dev/flux2"
              {| ses_calls := []; ses_errors := [] |}
              {| ses_calls := [("git rev-parse --is-inside-work-tree",
                                Some "/home/dev/flux2", false);
                               ("git ls-remote --get-url origin",
                                Some "/home/dev/flux2", false);
                               ("git rev-parse --abbrev-ref HEAD",
                                Some "/home/dev/flux2", false)];
                 ses_errors := [] |}
              {| url := "https://github.com/fluxcd/flux2"; branch := "main" |}
              eq_refl) as (_ & Hurl & Hbranch & _).
  split; [exact Hurl|exact Hbranch].
Defined.

(** X15.  [getGitRepositoryState] stops at the first command that does
    not give what it needs.  If the folder check does not exit with 0 (a
    null code after a timeout included), no other git command is run, one
    message is shown and the result is [undefined].  And a result
    [undefined] with no message shown at all arises only when the url or
    the branch command exited with 0 but printed nothing except white
    space. *)
Theorem getGitRepositoryState_stops_early
    (sh : ShellExecWithOutput) (cwd : string) (s0 : Session) :
  (forall r1,
      sh "git rev-parse --is-inside-work-tree" (Some cwd) false = Resolved r1 ->
      code r1 <> Some 0 ->
      getGitRepositoryState sh cwd s0
      = (Returned None,
         {| ses_calls := ses_calls s0
                         ++ [("git rev-parse --is-inside-work-tree", Some cwd, false)];
            ses_errors := ses_errors s0 ++ ["Not a git repository " +:+ cwd] |})) /\
  (forall s1,
      getGitRepositoryState sh cwd s0 = (Returned None, s1) ->
      ses_errors s1 = ses_errors s0 ->
      exists cmd r,
        (cmd = "git ls-remote --get-url origin" \/
         cmd = "git rev-parse --abbrev-ref HEAD") /\
        sh cmd (Some cwd) false = Resolved r /\ code r = Some 0 /\
        trim (stdout r) = "").
Proof.
  split.
  - intros r1 Hr1 Hc1.
    unfold getGitRepositoryState, checkIfInsideGitRepository, bind,
      execWithOutputTask, showErrorMessage, ret.
    rewrite Hr1. cbn [await].
    destruct (exitedZero r1) eqn:Hz; [now apply exitedZero_code in Hz|].
    reflexivity.
  - intros s1. unfold getGitRepositoryState, bind at 1.
    destruct (checkIfInsideGitRepository sh cwd s0) as [a1 sa] eqn:H1.
    destruct (checkIfInsideGitRepository_spec sh cwd s0 _ sa H1)
      as (_ & Hin & Hout & _).
    destruct a1 as [| |[|]]; cbn [negb]; try discriminate.
    + destruct (Hin eq_refl) as (He1 & _).
      unfold bind at 1.
      destruct (getGitOriginUrl sh cwd sa) as [a2 sb] eqn:H2.
      destruct (getGitOriginUrl_spec sh cwd sa _ sb H2) as (_ & Hok2 & Hno2).
      destruct a2 as [| |[u|]]; try discriminate.
      * destruct (Hok2 u eq_refl) as (He2 & r2 & Hr2 & Hz2 & Hu).
        cbn [truthy]. destruct (String.eqb u "") eqn:Hempty; cbn [negb].
        -- intros _ _. apply String.eqb_eq in Hempty. subst u.
           exists "git ls-remote --get-url origin", r2. now repeat split; auto.
        -- unfold bind.
           destruct (getGitBranch sh cwd sb) as [a3 sc] eqn:H3.
           destruct (getGitBranch_spec sh cwd sb _ sc H3) as (_ & Hok3 & Hno3).
           destruct a3 as [| |[b|]]; try discriminate.
           ++ destruct (Hok3 b eq_refl) as (He3 & r3 & Hr3 & Hz3 & Hb).
              cbn [truthy]. destruct (String.eqb b "") eqn:Hbempty; cbn [negb];
                [|discriminate].
              intros _ _. apply String.eqb_eq in Hbempty. subst b.
              exists "git rev-parse --abbrev-ref HEAD", r3. now repeat split; auto.
           ++ destruct (Hno3 eq_refl) as (r3 & _ & _ & He3).
              cbn [truthy negb]. unfold ret. intros [= <-] Herr. exfalso.
              rewrite He3, He2, He1 in Herr.
              apply (f_equal (@length string)) in Herr.
              rewrite length_app in Herr. simpl in Herr. lia.
      * destruct (Hno2 eq_refl) as (r2 & _ & _ & He2).
        cbn [truthy negb]. unfold ret. intros [= <-] Herr. exfalso.
        rewrite He2, He1 in Herr.
        apply (f_equal (@length string)) in Herr.
        rewrite length_app in Herr. simpl in Herr. lia.
    + destruct (Hout eq_refl) as (He1 & _).
      unfold ret. intros [= <-] Herr. exfalso. rewrite He1 in Herr.
      apply (f_equal (@length string)) in Herr.
      rewrite length_app in Herr. simpl in Herr. lia.
Qed.

(** An origin url of white space only (a no-break space and a line
    feed): the result is [undefined] after two commands, and no message
    is shown. *)
Example getGitRepositoryState_blank_url :
  getGitRepositoryState
    (fun cmd _ _ =>
       Resolved {| code := Some 0;
                   stdout := if String.eqb cmd "git ls-remote --get-url origin"
                             then NBSP +:+ LF else "true" +:+ LF;
                   stderr := "" |})
    "/tmp" {| ses_calls := []; ses_errors := [] |}
  = (Returned None,
     {| ses_calls := [("git rev-parse --is-inside-work-tree", Some "/tmp", false);
                      ("git ls-remote --get-url origin", Some "/tmp", false)];
        ses_errors := [] |}).
Proof. vm_compute. reflexivity. Qed.

Lemma getGitRepositoryState_stops_early_witness :
  getGitRepositoryState
    (fun _ _ _ => Resolved {| code := None; stdout := ""; stderr := "" |})
    "/tmp" {| ses_calls := []; ses_errors := [] |}
  = (Returned None,
     {| ses_calls := [] ++ [("git rev-parse --is-inside-work-tree", Some "/tmp", false)];
        ses_errors := [] ++ ["Not a git repository " +:+ "/tmp"] |}).
Proof.
  destruct (getGitRepositoryState_stops_early
              (fun _ _ _ => Resolved {| code := None; stdout := ""; stderr := "" |})
              "/tmp" {| ses_calls := []; ses_errors := [] |}) as [Hstop _].
  apply (Hstop {| code := None; stdout := ""; stderr := "" |}).
  - reflexivity.
  - discriminate.
Defined.

(** ** Telemetry *)

Lemma run_telemetry_names (extensionMode : ExtensionMode)
    (calls : list TelemetryCall) : forall reporter,
  map reportName (fold_left (telemetryStep extensionMode) calls reporter)
  = map reportName reporter
    ++ map callName
         (List.filter (fun c => canSend extensionMode (enabledAt c)) calls).
Proof.
  induction calls as [|c calls IH]; intros reporter; simpl;
    [now rewrite app_nil_r|].
  rewrite IH. destruct c as [enabled name payload|enabled name error];
    simpl; unfold send_event, sendError;
    destruct (canSend extensionMode enabled); simpl;
    rewrite ?map_app, <- ?app_assoc; reflexivity.
Qed.

(** X16.  Over any sequence of [send] and [sendError] calls the reporter
    receives one item per call made while the extension runs in
    production mode and the user has telemetry enabled, in the order of
    the calls and under the name of the call; outside production mode, or
    while telemetry is disabled, nothing is ever handed to it. *)
Theorem telemetry_only_when_allowed
    (extensionMode : ExtensionMode) (calls : list TelemetryCall) :
  let reporter := fold_left (telemetryStep extensionMode) calls [] in
  map reportName reporter
  = map callName (List.filter (fun c => canSend extensionMode (enabledAt c)) calls) /\
  (extensionMode <> Production -> reporter = []) /\
  (forallb (fun c => negb (enabledAt c)) calls = true -> reporter = []).
Proof.
  cbv zeta. assert (Hnames := run_telemetry_names extensionMode calls []).
  simpl in Hnames. split; [exact Hnames|]. split.
  - intros Hmode. apply (map_eq_nil reportName). rewrite Hnames.
    replace (List.filter _ calls) with (@nil TelemetryCall); [reflexivity|].
    clear Hnames. induction calls as [|c calls IH]; [reflexivity|]. simpl.
    destruct extensionMode; [congruence|exact IH|exact IH].
  - intros Hoff. apply (map_eq_nil reportName). rewrite Hnames.
    replace (List.filter _ calls) with (@nil TelemetryCall); [reflexivity|].
    clear Hnames. induction calls as [|c calls IH]; [reflexivity|]. simpl in *.
    apply andb_prop in Hoff as [Hc Hrest]. apply negb_true_iff in Hc.
    rewrite Hc. destruct extensionMode; simpl; now apply IH.
Qed.

Lemma telemetry_only_when_allowed_witness :
  fold_left (telemetryStep Development)
    [CallSend true "STARTUP" None;
     CallSendError true "UNCAUGHT_EXCEPTION" (Some "boom")] []
  = [].
Proof.
  destruct (telemetry_only_when_allowed Development
              [CallSend true "STARTUP" None;
               CallSendError true "UNCAUGHT_EXCEPTION" (Some "boom")])
    as (_ & Hmode & _).
  apply Hmode. discriminate.
Defined.

(** ** Azure commands *)

(** X17.  [getAzureMetadata] returns only complete metadata: the resource
    group, the resource name and the subscription are the three entries
    of the [data] of the config map that [kubectl] printed with exit code
    0, and none of them is empty.  It throws only when [kubectl] threw,
    or when [kubectl] exited with code 0 and what was parsed from its
    output is [null] or has no [data] to read the entries from. *)
Theorem getAzureMetadata_is_complete
    (kubectl : Kubectl) (parseJson : ParseConfigMap) (contextName : string)
    (clusterProvider : AzureClusterProvider) :
  (forall m,
      getAzureMetadata kubectl parseJson contextName clusterProvider
      = Returned (Some m) ->
      resourceGroup m <> "" /\ resourceName m <> "" /\ subscriptionId m <> "" /\
      exists command r data,
        kubectl command = Returned (Some r) /\ code r = Some 0 /\
        parseJson (stdout r) = JsonValue (Some data) /\
        data !! "AZURE_RESOURCE_GROUP" = Some (resourceGroup m) /\
        data !! "AZURE_RESOURCE_NAME" = Some (resourceName m) /\
        data !! "AZURE_SUBSCRIPTION_ID" = Some (subscriptionId m)) /\
  (forall e,
      getAzureMetadata kubectl parseJson contextName clusterProvider = Raised e ->
      exists command,
        kubectl command = Raised e \/
        exists r,
          kubectl command = Returned (Some r) /\ code r = Some 0 /\
          (parseJson (stdout r) = JsonNull \/ parseJson (stdout r) = JsonValue None)).
Proof.
  unfold getAzureMetadata.
  destruct (kubectl _) as [|e0|[r|]] eqn:Hk;
    [split; intros x Hx; discriminate Hx
    |split; [intros x Hx; discriminate Hx|]
    |
    |split; intros x Hx; discriminate Hx].
  { intros e [= <-]. eexists. left. exact Hk. }
  destruct (exitedZero r) eqn:Hz; [|split; intros x Hx; discriminate Hx].
  apply exitedZero_code in Hz.
  destruct (parseJson (stdout r)) as [| |[data|]] eqn:Hp;
    [split; intros x Hx; discriminate Hx
    |split; [intros x Hx; discriminate Hx|]
    |
    |split; [intros x Hx; discriminate Hx|]].
  - intros e _. eexists. right. exists r. split; [exact Hk|]. split; [exact Hz|].
    now left.
  - split.
    + intros m.
      destruct (truthy (data !! "AZURE_RESOURCE_GROUP")) eqn:Hg; [|discriminate].
      destruct (truthy (data !! "AZURE_RESOURCE_NAME")) eqn:Hn; [|discriminate].
      destruct (truthy (data !! "AZURE_SUBSCRIPTION_ID")) eqn:Hs; [|discriminate].
      apply truthy_Some in Hg as (g & Hg & Hgne).
      apply truthy_Some in Hn as (n & Hn & Hnne).
      apply truthy_Some in Hs as (s & Hs & Hsne).
      rewrite Hg, Hn, Hs. cbn [negb orb default]. intros [= <-]. cbn.
      split; [exact Hgne|]. split; [exact Hnne|]. split; [exact Hsne|].
      eexists _, r, data. split; [exact Hk|]. split; [exact Hz|]. now repeat split.
    + intros e. destruct (_ || _); discriminate.
  - intros e _. eexists. right. exists r. split; [exact Hk|]. split; [exact Hz|].
    now right.
Qed.

Lemma getAzureMetadata_is_complete_witness :
  resourceGroup {| resourceGroup := "rg"; resourceName := "aks1";
                   subscriptionId := "sub" |} <> "".
Proof.
  destruct (getAzureMetadata_is_complete
              (fun _ => Returned (Some {| code := Some 0; stdout := "{}"; stderr := "" |}))
              (fun _ => JsonValue
                          (Some (<["AZURE_RESOURCE_GROUP" := "rg"]>
                                   (<["AZURE_RESOURCE_NAME" := "aks1"]>
                                      (<["AZURE_SUBSCRIPTION_ID" := "sub"]> ∅)))))
              "ctx" AKS) as (Hsome & _).
  destruct (Hsome {| resourceGroup := "rg"; resourceName := "aks1";
                     subscriptionId := "sub" |}) as (Hgroup & _).
  - vm_compute. reflexivity.
  - exact Hgroup.
Defined.

(** X18.  [invokeAzCommand] hands at most one command line to the shell.
    When it returns a result, that result is what the shell resolved for
    the given command followed by a space and the cluster options, built
    from metadata that either came from the cluster (then the user was
    neither warned nor asked) or from the user (after one warning).  When
    neither the cluster nor the user gives metadata, nothing is
    executed and the result is [undefined].  When [getAzureMetadata]
    throws, so does [invokeAzCommand], before any warning, question or
    command. *)
Theorem invokeAzCommand_runs_one_command
    (kubectl : Kubectl) (parseJson : ParseConfigMap)
    (askUserForAzureMetadata : string -> Async (option AzureMetadata))
    (sh : ShellExecWithOutput) (command contextName : string)
    (clusterProvider : AzureClusterProvider) :
  let outcome := invokeAzCommand kubectl parseJson askUserForAzureMetadata sh
                   command contextName clusterProvider in
  (length (az_executed (snd outcome)) <= 1)%nat /\
  (forall r,
      fst outcome = Returned (Some r) ->
      exists m,
        az_executed (snd outcome)
        = [command +:+ " " +:+ azMetadataOptions clusterProvider m] /\
        sh (command +:+ " " +:+ azMetadataOptions clusterProvider m) None true
        = Resolved r /\
        ((getAzureMetadata kubectl parseJson contextName clusterProvider
          = Returned (Some m) /\
          az_warnings (snd outcome) = [] /\ az_asked (snd outcome) = []) \/
         (getAzureMetadata kubectl parseJson contextName clusterProvider
          = Returned None /\
          askUserForAzureMetadata contextName = Returned (Some m) /\
          length (az_warnings (snd outcome)) = 1%nat /\
          az_asked (snd outcome) = [contextName]))) /\
  (getAzureMetadata kubectl parseJson contextName clusterProvider = Returned None ->
   askUserForAzureMetadata contextName = Returned None ->
   fst outcome = Returned None /\ az_executed (snd outcome) = []) /\
  (forall e,
      getAzureMetadata kubectl parseJson contextName clusterProvider = Raised e ->
      fst outcome = Raised e /\
      snd outcome = {| az_warnings := []; az_asked := []; az_executed := [] |}).
Proof.
  cbv zeta. unfold invokeAzCommand.
  destruct (getAzureMetadata kubectl parseJson contextName clusterProvider)
    as [|e0|[m|]] eqn:Hm.
  - split; [simpl; lia|]. split; [intros r Hr; discriminate Hr|].
    split; discriminate.
  - split; [simpl; lia|]. split; [intros r Hr; discriminate Hr|].
    split; [discriminate|]. intros e [= <-]. now split.
  - split; [simpl; lia|]. split; [|split; discriminate].
    intros r. cbn [fst snd az_executed az_warnings az_asked].
    destruct (sh _ None true) as [|r'|e] eqn:Hsh; cbn [await]; try discriminate.
    intros [= <-]. exists m. split; [reflexivity|]. split; [exact Hsh|].
    left. now repeat split.
  - destruct (askUserForAzureMetadata contextName) as [| |[m|]] eqn:Hask.
    + split; [simpl; lia|]. split; [intros r Hr; discriminate Hr|].
      split; discriminate.
    + split; [simpl; lia|]. split; [intros r Hr; discriminate Hr|].
      split; discriminate.
    + split; [simpl; lia|]. split; [|split; discriminate].
      intros r. cbn [fst snd az_executed az_warnings az_asked].
      destruct (sh _ None true) as [|r'|e] eqn:Hsh; cbn [await]; try discriminate.
      intros [= <-]. exists m. split; [reflexivity|]. split; [exact Hsh|].
      right. now repeat split.
    + split; [simpl; lia|]. split; [intros r Hr; discriminate Hr|].
      split; [intros _ _; now split|discriminate].
Qed.

(** A config map with no [data]: the command throws, and the user is
    neither warned nor asked. *)
Lemma invokeAzCommand_runs_one_command_witness :
  let outcome :=
    invokeAzCommand
      (fun _ => Returned (Some {| code := Some 0; stdout := "{}"; stderr := "" |}))
      (fun _ => JsonValue None) (fun _ => Returned None)
      (fun _ _ _ => Pending) "az k8s-extension delete --name flux --yes" "ctx" AKS in
  fst outcome = Raised entryOfUndefined /\
  snd outcome = {| az_warnings := []; az_asked := []; az_executed := [] |}.
Proof.
  destruct (invokeAzCommand_runs_one_command
              (fun _ => Returned (Some {| code := Some 0; stdout := "{}"; stderr := "" |}))
              (fun _ => JsonValue None) (fun _ => Returned None)
              (fun _ _ _ => Pending) "az k8s-extension delete --name flux --yes"
              "ctx" AKS) as (_ & _ & _ & Hraised).
  apply Hraised. reflexivity.
Defined.

Lemma truthy_pruneText (args : SourceGitArgs) : truthy (Some (pruneText args)) = true.
Proof. unfold pruneText. now destruct (kustomizationPrune args). Qed.

(** X19.  The command line of [createSourceGit2] always carries the
    [--kustomization] option, also when no kustomization field is given:
    the text for the prune flag is never empty, so the option is followed
    by the given fields, the prune text and the force text, where a
    force flag that is off is written [prune=false] and a flag that is
    off has no space before it. *)
Theorem createSourceGit2_always_has_kustomization (args : SourceGitArgs) :
  kustomizationPart args
  = " --kustomization" +:+ kustomizationFields args
    +:+ (if kustomizationPrune args then " prune=true" else "prune=false")
    +:+ (if kustomizationForce args then " force=true" else "prune=false") /\
  createSourceGit2Command args
  = "az k8s-configuration flux create -n " +:+ sourceName args
    +:+ " --url " +:+ DQ +:+ arg_url args +:+ DQ +:+ sourceFlags args
    +:+ " --kustomization" +:+ kustomizationFields args
    +:+ (if kustomizationPrune args then " prune=true" else "prune=false")
    +:+ (if kustomizationForce args then " force=true" else "prune=false").
Proof.
  assert (Hpart : kustomizationPart args
                  = " --kustomization" +:+ kustomizationFields args
                    +:+ pruneText args +:+ forceText args).
  { unfold kustomizationPart. rewrite truthy_pruneText, !orb_true_r.
    cbn [orb]. unfold kustomizationFields. now rewrite !append_assoc. }
  split; [exact Hpart|].
  unfold createSourceGit2Command. now rewrite Hpart.
Qed.

(** ** A git query over a command that times out *)

Lemma execWithOutput_result_at_exit
    (cfg : Settings) (cmd : string) (rv sp : bool) (cwd : option string) (h : Host)
    (proc : ChildProcess) (t : ProcessTree) (pre post : list Event) (c : option Z) :
  forallb (fun ev => negb (isExit ev)) pre = true ->
  run_result (execWithOutput cfg cmd rv sp cwd h (Spawned proc) t
                (pre ++ EvExit c :: post))
  = Resolved (resultAtExit cmd c
                (run_ui (execWithOutput cfg cmd rv sp cwd h (Spawned proc) t pre))).
Proof.
  intros Hpre.
  destruct (execWithOutput_unfold cfg cmd rv sp cwd h proc t)
    as (reporter & s0 & Hs0 & _ & Hrun).
  destruct (Hrun pre) as (_ & -> & _).
  destruct (Hrun (pre ++ EvExit c :: post)) as (-> & _).
  now apply run_through_exit.
Qed.

(** X20.  When [git ls-remote --get-url origin], run through
    [execWithOutput], is ended by the timeout (its exit code is null),
    [getGitOriginUrl] returns [undefined] and shows one message: the text
    [Failed to get origin url] followed by the timeout note that wraps
    whatever the command had written to stderr before the exit. *)
Theorem getGitOriginUrl_on_timeout
    (cfg : Settings) (h : Host) (proc : ChildProcess) (t : ProcessTree)
    (pre post : list Event) (cwd : string) (s0 : Session) :
  forallb (fun ev => negb (isExit ev)) pre = true ->
  let sh : ShellExecWithOutput :=
    fun cmd dir rv =>
      run_result (execWithOutput cfg cmd rv true dir h (Spawned proc) t
                    (pre ++ EvExit None :: post)) in
  let before :=
    execWithOutput cfg "git ls-remote --get-url origin" false true (Some cwd) h
      (Spawned proc) t pre in
  getGitOriginUrl sh cwd s0
  = (Returned None,
     {| ses_calls := ses_calls s0
                     ++ [("git ls-remote --get-url origin", Some cwd, false)];
        ses_errors :=
          ses_errors s0
          ++ ["Failed to get origin url "
              +:+ timedOut "git ls-remote --get-url origin"
                    (joinChunks (chunksFrom StderrChunk (run_ui before)))] |}).
Proof.
  intros Hpre. cbv zeta.
  unfold getGitOriginUrl, bind, execWithOutputTask, showErrorMessage, ret.
  rewrite execWithOutput_result_at_exit by exact Hpre.
  reflexivity.
Qed.

Lemma getGitOriginUrl_on_timeout_witness :
  getGitOriginUrl
    (fun cmd dir rv =>
       run_result (execWithOutput Sample.oneSecond cmd rv true dir Sample.linuxHost
                     (Spawned (Sample.sh "git ls-remote --get-url origin"))
                     Sample.shOnly
                     ([EvStderr "fatal: "] ++ EvExit None :: [])))
    "/home/dev/flux2" {| ses_calls := []; ses_errors := [] |}
  = (Returned None,
     {| ses_calls := [] ++ [("git ls-remote --get-url origin",
                             Some "/home/dev/flux2", false)];
        ses_errors :=
          [] ++ ["Failed to get origin url "
                 +:+ timedOut "git ls-remote --get-url origin"
                       (joinChunks
                          (chunksFrom StderrChunk
                             (run_ui
                                (execWithOutput Sample.oneSecond
                                   "git ls-remote --get-url origin" false true
                                   (Some "/home/dev/flux2") Sample.linuxHost
                                   (Spawned (Sample.sh "git ls-remote --get-url origin"))
                                   Sample.shOnly [EvStderr "fatal: "]))))] |}).
Proof.
  apply (getGitOriginUrl_on_timeout Sample.oneSecond Sample.linuxHost
           (Sample.sh "git ls-remote --get-url origin") Sample.shOnly
           [EvStderr "fatal: "] [] "/home/dev/flux2"
           {| ses_calls := []; ses_errors := [] |}).
  reflexivity.
Defined.

(** The probe on a command that timed out without writing to stderr:
    the message is the code as text. *)
Lemma isGoFishInstalled_by_exit_code_witness :
  exists r message,
    (fun _ : string => Resolved {| code := None; stdout := ""; stderr := "" |})
      "gofish version" = Resolved r /\
    code r <> Some 0 /\
    ["null"] = [message] /\ message <> "" /\
    message = orElse (stderr r) (numberToString (code r)).
Proof.
  destruct (isGoFishInstalled_by_exit_code
              (fun _ : string => Resolved {| code := None; stdout := ""; stderr := "" |}))
    as [_ Hfailed].
  apply Hfailed. reflexivity.
Defined.
